(** * vppctl-ai: the command knowledge engine, embedded and verified

    Shallow embedding of [src/vpp_cli_parser.py] ([VPPCommandDatabase],
    [VPPCommandValidator]) and of [VPPctlAgent.get_vpp_completions] in
    [src/main.py].

    Conventions of the embedding.
    - A Python [str] is a [string]; a character is a code point below 256.
      Whitespace, lower-casing and ordering follow Python on that range;
      ASCII text is represented exactly.
    - The SQLite table [commands] is the list of its rows; the [UNIQUE]
      constraint on [path] is the predicate [unique_paths].  [=] on a
      [TEXT] column is byte equality, [LIKE] is the default SQLite operator
      (wildcards [%] and [_], ASCII letters compared without case),
      [ORDER BY path] is the binary collation.
      SQLite reads the operands of [LIKE] up to their first code point 0,
      refuses a pattern of more than 50000 bytes and binds integers as
      signed 64-bit values; the queries are exact on text without code
      point 0, patterns within that length and limits within that range,
      and a statement that depends on it carries these bounds as
      hypotheses.  Errors raised by SQLite are not modelled.
    - A Python [dict] is an association list in insertion order.
    - Integer expressions of the source ([len(..) - 1], [abs(..)]) are
      computed in [Z]. *)

From Stdlib Require Import Strings.String Strings.Ascii Lists.List Bool.Bool.
From Stdlib Require Import Arith.Arith ZArith.ZArith QArith.QArith micromega.Lia.
From Stdlib Require Import Sorting.Permutation Sorting.Sorted.
Import ListNotations.

Open Scope list_scope.
Open Scope nat_scope.
Open Scope string_scope.

(** ** Python [str] operations *)

Module PyStr.

Definition code (c : ascii) : nat := nat_of_ascii c.

(** [str.isspace] on one character: TAB..CR, FS..US, SPACE, NEL, NBSP. *)
Definition isspace (c : ascii) : bool :=
  let n := code c in
  (((9 <=? n) && (n <=? 13)) || ((28 <=? n) && (n <=? 32))
   || (n =? 133) || (n =? 160))%nat.

(** [str.lower] on one character (ASCII and Latin-1 capitals). *)
Definition lower_char (c : ascii) : ascii :=
  let n := code c in
  if (((65 <=? n) && (n <=? 90))
      || ((192 <=? n) && (n <=? 222) && negb (n =? 215)))%nat
  then ascii_of_nat (n + 32) else c.

Fixpoint lower (s : string) : string :=
  match s with
  | EmptyString => EmptyString
  | String c s' => String (lower_char c) (lower s')
  end.

Fixpoint lstrip (s : string) : string :=
  match s with
  | EmptyString => EmptyString
  | String c s' => if isspace c then lstrip s' else s
  end.

Fixpoint rstrip (s : string) : string :=
  match s with
  | EmptyString => EmptyString
  | String c s' =>
      match rstrip s' with
      | EmptyString => if isspace c then EmptyString else String c EmptyString
      | r => String c r
      end
  end.

(** [s.strip()] *)
Definition strip (s : string) : string := rstrip (lstrip s).

(** Truthiness of a [str]. *)
Definition nonempty (s : string) : bool :=
  match s with EmptyString => false | _ => true end.

(** [s.startswith(p)] *)
Definition startswith (s p : string) : bool := String.prefix p s.

(** [sub in s] *)
Fixpoint str_in (sub s : string) : bool :=
  startswith s sub
  || match s with
     | EmptyString => false
     | String _ s' => str_in sub s'
     end.

(** [s[n:]] *)
Fixpoint drop (n : nat) (s : string) : string :=
  match n, s with
  | S k, String _ s' => drop k s'
  | _, _ => s
  end.

(** [s[:n]] *)
Fixpoint take (n : nat) (s : string) : string :=
  match n, s with
  | S k, String c s' => String c (take k s')
  | _, _ => EmptyString
  end.

(** [sep.join(l)] *)
Fixpoint join (sep : string) (l : list string) : string :=
  match l with
  | [] => EmptyString
  | [w] => w
  | w :: rest => w ++ sep ++ join sep rest
  end.

(** [s.split()]: maximal runs of non-whitespace characters.  [acc] is the
    word being read. *)
Fixpoint split_go (s acc : string) : list string :=
  match s with
  | EmptyString => if nonempty acc then [acc] else []
  | String c s' =>
      if isspace c
      then (if nonempty acc then acc :: split_go s' EmptyString
            else split_go s' EmptyString)
      else split_go s' (acc ++ String c EmptyString)
  end.

Definition split (s : string) : list string := split_go s EmptyString.

(** [s.split(sep)] for a non-empty separator.  [skip] counts the characters
    of a separator still to be passed over, [acc] is the current piece. *)
Fixpoint split_sep_go (sep s : string) (skip : nat) (acc : string)
  : list string :=
  match s with
  | EmptyString => [acc]
  | String c s' =>
      match skip with
      | S k => split_sep_go sep s' k acc
      | O =>
          if startswith s sep
          then acc :: split_sep_go sep s' (String.length sep - 1) EmptyString
          else split_sep_go sep s' 0 (acc ++ String c EmptyString)
      end
  end.

Definition split_sep (sep s : string) : list string :=
  split_sep_go sep s 0 EmptyString.

(** [sorted(l)] on strings: insertion sort by code-point order. *)
Fixpoint insert_sorted (x : string) (l : list string) : list string :=
  match l with
  | [] => [x]
  | y :: l' => if String.leb x y then x :: l else y :: insert_sorted x l'
  end.

Definition sorted (l : list string) : list string :=
  fold_right insert_sorted [] l.

Definition mem (x : string) (l : list string) : bool :=
  existsb (String.eqb x) l.

(** [list(dict.fromkeys(l))]: drop repeats, keep first occurrences. *)
Fixpoint unique_go (seen l : list string) : list string :=
  match l with
  | [] => []
  | x :: l' => if mem x seen then unique_go seen l'
               else x :: unique_go (x :: seen) l'
  end.

Definition unique (l : list string) : list string := unique_go [] l.

End PyStr.

(** ** The fragment of Python's [re] that the source uses

    Patterns are regular expressions over character classes, matched with
    Brzozowski derivatives.  [re.search], [re.match] and the truth value of
    their result depend only on the language of the pattern.  Where the
    source needs the extent of a match ([re.sub], [re.findall],
    [re.split]) its patterns have no alternation, so the greedy match
    Python finds at a position is the longest one. *)

Module Re.

Inductive regex : Type :=
| Void
| Eps
| Cls (p : ascii -> bool)
| Cat (r1 r2 : regex)
| Alt (r1 r2 : regex)
| Star (r : regex).

Fixpoint nullable (r : regex) : bool :=
  match r with
  | Void => false
  | Eps => true
  | Cls _ => false
  | Cat r1 r2 => nullable r1 && nullable r2
  | Alt r1 r2 => nullable r1 || nullable r2
  | Star _ => true
  end.

(** Constructors that absorb [Void] and [Eps], to keep derivatives small. *)
Definition cat (r1 r2 : regex) : regex :=
  match r1, r2 with
  | Void, _ => Void
  | _, Void => Void
  | Eps, _ => r2
  | _, Eps => r1
  | _, _ => Cat r1 r2
  end.

Definition alt (r1 r2 : regex) : regex :=
  match r1, r2 with
  | Void, _ => r2
  | _, Void => r1
  | _, _ => Alt r1 r2
  end.

Fixpoint deriv (c : ascii) (r : regex) : regex :=
  match r with
  | Void => Void
  | Eps => Void
  | Cls p => if p c then Eps else Void
  | Cat r1 r2 =>
      if nullable r1
      then alt (cat (deriv c r1) r2) (deriv c r2)
      else cat (deriv c r1) r2
  | Alt r1 r2 => alt (deriv c r1) (deriv c r2)
  | Star r1 => cat (deriv c r1) (Star r1)
  end.

(** The whole of [s] is in the language of [r]. *)
Fixpoint fullmatch (r : regex) (s : string) : bool :=
  match s with
  | EmptyString => nullable r
  | String c s' => fullmatch (deriv c r) s'
  end.

(** Length of the longest prefix of [s] in the language of [r]. *)
Fixpoint longest (r : regex) (s : string) : option nat :=
  let here := if nullable r then Some 0 else None in
  match s with
  | EmptyString => here
  | String c s' =>
      match longest (deriv c r) s' with
      | Some k => Some (S k)
      | None => here
      end
  end.

(** [bool(re.match(r, s))]: some prefix of [s] matches. *)
Definition match_ (r : regex) (s : string) : bool :=
  match longest r s with Some _ => true | None => false end.

(** [bool(re.search(r, s))]: some substring of [s] matches. *)
Fixpoint search (r : regex) (s : string) : bool :=
  match_ r s
  || match s with
     | EmptyString => false
     | String _ s' => search r s'
     end.

(** [re.sub(r, repl, s)] for a pattern without empty matches; [skip]
    counts the characters of the current match still to be passed over. *)
Fixpoint sub_go (r : regex) (repl s : string) (skip : nat) : string :=
  match s with
  | EmptyString => EmptyString
  | String c s' =>
      match skip with
      | S k => sub_go r repl s' k
      | O =>
          match longest r s with
          | Some (S k) => repl ++ sub_go r repl s' k
          | _ => String c (sub_go r repl s' 0)
          end
      end
  end.

Definition sub (r : regex) (repl s : string) : string := sub_go r repl s 0.

(** The non-overlapping matches of [r] in [s], left to right (the whole
    match; patterns without empty matches). *)
Fixpoint findall_go (r : regex) (s : string) (skip : nat) : list string :=
  match s with
  | EmptyString => []
  | String c s' =>
      match skip with
      | S k => findall_go r s' k
      | O =>
          match longest r s with
          | Some (S k) => PyStr.take (S k) s :: findall_go r s' k
          | _ => findall_go r s' 0
          end
      end
  end.

Definition findall (r : regex) (s : string) : list string :=
  findall_go r s 0.

(** [re.split(r, s)] for a pattern anchored with [^] (no MULTILINE) that
    has no empty match: at most one split, at position 0. *)
Definition split_anchored (r : regex) (s : string) : list string :=
  match longest r s with
  | Some (S k) => [EmptyString; PyStr.drop (S k) s]
  | _ => [s]
  end.

(** *** Character classes and literals *)

Definition chr (c : ascii) : regex := Cls (Ascii.eqb c).
Definition not_chr (c : ascii) : regex := Cls (fun x => negb (Ascii.eqb c x)).

(** A literal character under [re.IGNORECASE]. *)
Definition chr_i (c : ascii) : regex :=
  Cls (fun x => Ascii.eqb (PyStr.lower_char x) (PyStr.lower_char c)).

(** [.] without DOTALL: anything but a newline. *)
Definition dot : regex := not_chr "010"%char.

Definition in_range (lo hi : nat) (x : ascii) : bool :=
  ((lo <=? PyStr.code x) && (PyStr.code x <=? hi))%nat.

(** [\d] on code points below 256. *)
Definition is_digit : ascii -> bool := in_range 48 57.
(** [\s] *)
Definition is_space : ascii -> bool := PyStr.isspace.
(** [[a-zA-Z]] *)
Definition is_alpha (x : ascii) : bool := in_range 97 122 x || in_range 65 90 x.

Definition plus (r : regex) : regex := Cat r (Star r).

(** A literal string, case-sensitively and under IGNORECASE. *)
Fixpoint lit (s : string) : regex :=
  match s with
  | EmptyString => Eps
  | String c s' => Cat (chr c) (lit s')
  end.

Fixpoint lit_i (s : string) : regex :=
  match s with
  | EmptyString => Eps
  | String c s' => Cat (chr_i c) (lit_i s')
  end.

Definition alts (l : list regex) : regex := fold_right Alt Void l.

End Re.

(** ** The SQLite table [commands] and the queries the source runs on it *)

(** [@dataclass class VPPCommand] *)
Record VPPCommand : Type := mkVPPCommand {
  path : string;
  short_help : string;
  function_name : string;
  file_path : string;
  category : string
}.

Module Sql.

(** The rows of [commands]. *)
Definition table : Type := list VPPCommand.

(** [path TEXT UNIQUE] *)
Definition unique_paths (db : table) : Prop := NoDup (map path db).

(** Case folding of [LIKE]: ASCII letters only. *)
Definition fold_ascii (c : ascii) : ascii :=
  if Re.in_range 65 90 c then ascii_of_nat (PyStr.code c + 32) else c.

(** [s LIKE pat], without ESCAPE. *)
Fixpoint like (pat s : string) {struct pat} : bool :=
  match pat with
  | EmptyString => negb (PyStr.nonempty s)
  | String p pat' =>
      if Ascii.eqb p "%"%char then
        (fix star (t : string) : bool :=
           like pat' t
           || match t with
              | EmptyString => false
              | String _ t' => star t'
              end) s
      else
        match s with
        | EmptyString => false
        | String c s' =>
            (Ascii.eqb p "_"%char || Ascii.eqb (fold_ascii p) (fold_ascii c))
            && like pat' s'
        end
  end.

(** [ORDER BY path] (stable insertion sort on the binary collation). *)
Fixpoint insert_row (r : VPPCommand) (l : table) : table :=
  match l with
  | [] => [r]
  | r' :: l' =>
      if String.leb (path r) (path r') then r :: l else r' :: insert_row r l'
  end.

Definition order_by_path (l : table) : table := fold_right insert_row [] l.

(** [SELECT .. FROM commands WHERE path = ?], then [fetchone()]. *)
Definition select_path_eq (db : table) (p : string) : option VPPCommand :=
  find (fun r => String.eqb (path r) p) db.

(** [SELECT .. FROM commands WHERE path LIKE ? ORDER BY path], then
    [fetchall()]. *)
Definition select_path_like (db : table) (pat : string) : table :=
  order_by_path (filter (fun r => like pat (path r)) db).

End Sql.

(** ** Python values and dictionaries *)

Inductive pyval : Type :=
| PBool (b : bool)
| PStr (s : string)
| PList (l : list string).

(** A [dict] with [str] keys, in insertion order. *)
Definition dict (V : Type) : Type := list (string * V).

Fixpoint dict_get {V : Type} (d : dict V) (k : string) : option V :=
  match d with
  | [] => None
  | (k', v) :: d' => if String.eqb k' k then Some v else dict_get d' k
  end.

(** [d[k] = v] *)
Fixpoint dict_set {V : Type} (d : dict V) (k : string) (v : V) : dict V :=
  match d with
  | [] => [(k, v)]
  | (k', v') :: d' =>
      if String.eqb k' k then (k', v) :: d' else (k', v') :: dict_set d' k v
  end.

(** [k in d] *)
Definition dict_has {V : Type} (d : dict V) (k : string) : bool :=
  match dict_get d k with Some _ => true | None => false end.

(** ** [class VPPCommandDatabase] *)

Definition len {A : Type} (l : list A) : Z := Z.of_nat (List.length l).

(** The local [normalizations] of [_normalize_command], in the order of
    the dict literal. *)
Definition normalizations : list (string * string) :=
  [ ("interfaces", "interface");
    ("routes", "route");
    ("tunnels", "tunnel");
    ("policies", "policy");
    ("associations", "association");
    ("addresses", "address") ].

(** [_normalize_command] *)
Definition _normalize_command (command : string) : string :=
  match PyStr.split command with
  | w0 :: w1 :: rest =>
      match dict_get normalizations w1 with
      | Some singular => PyStr.join " " (w0 :: singular :: rest)
      | None =>
          match
            find (fun ps : string * string =>
                    PyStr.startswith (fst ps) w1
                    || PyStr.startswith w1
                         (PyStr.take (String.length w1) (fst ps)))
                 normalizations
          with
          | Some (_, singular) => PyStr.join " " (w0 :: singular :: rest)
          | None => command
          end
      end
  | _ => command
  end.

(** [_commands_similar].  The source compares the float
    [len(intersection) / len(union)] with [0.5]; for sets of fewer than
    2^53 words that is [2 * len(intersection) > len(union)]. *)
Definition _commands_similar (cmd1 cmd2 : string) : bool :=
  let words1 := PyStr.split (PyStr.lower cmd1) in
  let words2 := PyStr.split (PyStr.lower cmd2) in
  if list_eq_dec string_dec words1 words2 then true
  else
    let cmd1_str := PyStr.join " " words1 in
    let cmd2_str := PyStr.join " " words2 in
    if PyStr.str_in cmd1_str cmd2_str || PyStr.str_in cmd2_str cmd1_str
    then true
    else
      let intersection :=
        filter (fun w => PyStr.mem w words2) (PyStr.unique words1) in
      let union := PyStr.unique (words1 ++ words2)%list in
      match union with
      | [] => false
      | _ => (len union <? 2 * len intersection)%Z
      end.

(** [_find_similar_commands] with its default [limit = 5]. *)
Definition _find_similar_commands (db : Sql.table) (command : string)
  : list string :=
  let limit := 5 in
  let words := PyStr.split (PyStr.lower command) in
  let suggestions :=
    flat_map
      (fun word =>
         if (2 <? String.length word)%nat
         then map path
                (firstn limit (Sql.select_path_like db ("%" ++ word ++ "%")))
         else [])
      words in
  firstn limit (PyStr.unique suggestions).

(** [r'<[^>]+>'] *)
Definition placeholder_re : Re.regex :=
  Re.Cat (Re.chr "<") (Re.Cat (Re.plus (Re.not_chr ">")) (Re.chr ">")).

(** One constructor for each [return] of [validate_command]. *)
Inductive outcome : Type :=
| EmptyCommand
| Exact (row : VPPCommand)
| Structural (row : VPPCommand)
| StructuralFail (matches : list VPPCommand)
| Normalized (row : VPPCommand)
| Fuzzy (row : VPPCommand)
| NoMatch (suggestions : list string).

Definition found (row : VPPCommand) : dict pyval :=
  [ ("valid", PBool true); ("path", PStr (path row));
    ("help", PStr (short_help row)); ("category", PStr (category row)) ].

(** The dict literal of each [return]. *)
Definition verdict (o : outcome) : dict pyval :=
  match o with
  | EmptyCommand =>
      [ ("valid", PBool false); ("suggestions", PList []);
        ("reason", PStr "Empty command") ]
  | Exact row => found row
  | Structural row => (found row ++ [("similar", PBool true)])%list
  | StructuralFail matches =>
      [ ("valid", PBool false);
        ("suggestions", PList (map path (firstn 3 matches)));
        ("reason",
         PStr "Command structure with placeholder not found in database") ]
  | Normalized row => (found row ++ [("normalized", PBool true)])%list
  | Fuzzy row => (found row ++ [("similar", PBool true)])%list
  | NoMatch suggestions =>
      [ ("valid", PBool false); ("suggestions", PList suggestions) ]
  end.

(** The test of the structural loop on one fetched row. *)
Definition structural_ok (base_cmd : string) (cmd_word_count : Z)
  (m : VPPCommand) : bool :=
  let match_word_count := len (PyStr.split (path m)) in
  (PyStr.startswith (path m) base_cmd
   && (Z.abs (match_word_count - cmd_word_count) <=? 1)%Z)
  && ((match_word_count =? cmd_word_count)%Z
      || (match_word_count =? cmd_word_count - 1)%Z).

(** [command_base]: the text before the first placeholder, stripped. *)
Definition command_base (command : string) : string :=
  let command_with_placeholders :=
    Re.sub placeholder_re "<placeholder>" command in
  PyStr.strip
    (hd EmptyString
        (PyStr.split_sep "<placeholder>" command_with_placeholders)).

(** [base_cmd = ' '.join(cmd_parts[:2])] *)
Definition base_cmd (command : string) : string :=
  PyStr.join " " (firstn 2 (PyStr.split (command_base command))).

(** The placeholder block (source lines 183-212): [Some o] when it
    returns, [None] when control falls through to the normalizer.  On an
    empty [matches] the loop is skipped and the last [return] is reached,
    as with [find] on an empty list. *)
Definition structural_step (db : Sql.table) (command : string)
  : option outcome :=
  let command_with_placeholders :=
    Re.sub placeholder_re "<placeholder>" command in
  if PyStr.str_in "<placeholder>" command_with_placeholders
     || PyStr.str_in "<" command
  then
    if PyStr.nonempty (command_base command) then
      let cmd_parts := PyStr.split (command_base command) in
      if (len cmd_parts >=? 2)%Z then
        let matches := Sql.select_path_like db (base_cmd command ++ "%") in
        let cmd_word_count := len (PyStr.split command) in
        match find (structural_ok (base_cmd command) cmd_word_count) matches with
        | Some m => Some (Structural m)
        | None => Some (StructuralFail matches)
        end
      else None
    else None
  else None.

(** The test of the partial-match loop on one fetched row. *)
Definition fuzzy_ok (command : string) (m : VPPCommand) : bool :=
  _commands_similar command (path m)
  && (len (PyStr.split (path m)) >=? len (PyStr.split command) - 1)%Z.

(** The normalizer and partial-match block (source lines 214-244). *)
Definition fuzzy_step (db : Sql.table) (command : string) : outcome :=
  let command_normalized := _normalize_command command in
  match Sql.select_path_eq db command_normalized with
  | Some row => Normalized row
  | None =>
      let partial_matches :=
        match PyStr.split command with
        | first_word :: _ => Sql.select_path_like db (first_word ++ "%")
        | [] => []
        end in
      match find (fuzzy_ok command) partial_matches with
      | Some m => Fuzzy m
      | None => NoMatch (_find_similar_commands db command)
      end
  end.

(** Which [return] of [validate_command] is reached. *)
Definition validate_outcome (db : Sql.table) (command : string) : outcome :=
  let command := PyStr.strip command in
  if negb (PyStr.nonempty command) then EmptyCommand
  else
    match Sql.select_path_eq db command with
    | Some row => Exact row
    | None =>
        match structural_step db command with
        | Some o => o
        | None => fuzzy_step db command
        end
    end.

(** [validate_command] *)
Definition validate_command (db : Sql.table) (command : string)
  : dict pyval :=
  verdict (validate_outcome db command).

(** [get_command_completions] *)
Definition get_command_completions (db : Sql.table) (partial_command : string)
  : list string :=
  map path (firstn 20 (Sql.select_path_like db (partial_command ++ "%"))).

(** ** [class VPPCommandValidator] *)

(** The dict that [_check_known_hallucination] returns. *)
Record hallucination : Type := mkHallucination {
  is_hallucination : bool;
  pattern : string;
  correct : string;
  reason : string
}.

(** The double-quote character as a one-character string. *)
Definition dquote : string := String "034"%char EmptyString.

(** [KNOWN_HALLUCINATIONS], in the order of the dict literal: the pattern
    as written in the source, the pattern as a [regex] under
    [re.IGNORECASE], ['correct'] and ['reason']. *)
Definition KNOWN_HALLUCINATIONS : list (string * Re.regex * string * string) :=
  [ ("trace add <interface[^>]*>",
     Re.Cat (Re.lit_i "trace add <interface")
            (Re.Cat (Re.Star (Re.not_chr ">")) (Re.chr ">")),
     "trace add <input-graph-node>",
     "trace add requires input-graph-node, not interface name");
    ("trace add <interface_name>",
     Re.lit_i "trace add <interface_name>",
     "trace add <input-graph-node>",
     "trace add requires input-graph-node, not interface name");
    ("trace add.*interface",
     Re.Cat (Re.lit_i "trace add")
            (Re.Cat (Re.Star Re.dot) (Re.lit_i "interface")),
     "trace add <input-graph-node>",
     "trace add requires input-graph-node, not interface name");
    ("show trace max <number",
     Re.lit_i "show trace max <number",
     "show trace [max COUNT]",
     "show trace max takes COUNT directly, not <number_of_packets>");
    ("show trace detail",
     Re.lit_i "show trace detail",
     "show trace [max COUNT]",
     "show trace does not have a " ++ dquote ++ "detail" ++ dquote
     ++ " option") ].

(** [_check_known_hallucination] *)
Definition _check_known_hallucination (command : string)
  : option hallucination :=
  match
    find (fun e : string * Re.regex * string * string =>
            let '(_, r, _, _) := e in Re.search r command)
         KNOWN_HALLUCINATIONS
  with
  | Some (p, _, c, why) => Some (mkHallucination true p c why)
  | None => None
  end.

(** [r'`([^`]+)`'] *)
Definition backtick_re : Re.regex :=
  Re.Cat (Re.chr "`") (Re.Cat (Re.plus (Re.not_chr "`")) (Re.chr "`")).

(** Group 1 of a match of [backtick_re]: the text between the quotes. *)
Definition backtick_group (m : string) : string :=
  PyStr.take (String.length m - 2) (PyStr.drop 1 m).

(** [[\d\.\-\*]] *)
Definition item_char (x : ascii) : bool :=
  Re.is_digit x || Ascii.eqb x "." || Ascii.eqb x "-" || Ascii.eqb x "*".

(** [r'^[\d\.\-\*]\s*'] *)
Definition item_prefix_re : Re.regex :=
  Re.Cat (Re.Cls item_char) (Re.Star (Re.Cls Re.is_space)).

(** [r'^[\d\.\-\*]\s*(show|set|create|delete|ip|lcp|trace|pcap|clear|save)'] *)
Definition item_re : Re.regex :=
  Re.Cat item_prefix_re
    (Re.alts (map Re.lit
       ["show"; "set"; "create"; "delete"; "ip"; "lcp"; "trace"; "pcap";
        "clear"; "save"])).

(** [if cmd.startswith('vppctl '): cmd = cmd[7:].strip()] *)
Definition drop_vppctl (cmd : string) : string :=
  if PyStr.startswith cmd "vppctl " then PyStr.strip (PyStr.drop 7 cmd)
  else cmd.

(** First loop: backtick-enclosed commands. *)
Definition backtick_commands (text : string) : list string :=
  flat_map
    (fun m =>
       let cmd := drop_vppctl (PyStr.strip (backtick_group m)) in
       if PyStr.nonempty cmd && (len (PyStr.split cmd) >=? 1)%Z
       then [cmd] else [])
    (Re.findall backtick_re text).

(** Second loop: numbered or bulleted list items. *)
Definition item_commands (lines : list string) : list string :=
  flat_map
    (fun line =>
       let line := PyStr.strip line in
       if Re.match_ item_re (PyStr.lower line) then
         match Re.split_anchored item_prefix_re line with
         | _ :: part1 :: _ =>
             let cmd_part := drop_vppctl (PyStr.strip part1) in
             let cut (sep s : string) :=
               hd EmptyString (PyStr.split_sep sep s) in
             let cmd :=
               PyStr.strip
                 (cut " This " (cut " for " (cut " to " (cut " - " cmd_part)))) in
             let cmd_base := Re.sub placeholder_re "<placeholder>" cmd in
             if PyStr.nonempty cmd_base
                && (len (PyStr.split cmd_base) >=? 1)%Z
             then [cmd_base] else []
         | _ => []
         end
       else [])
    lines.

(** Third loop: free-standing lines that start with a VPP verb. *)
Definition standalone_commands (lines : list string) : list string :=
  flat_map
    (fun line =>
       let line := PyStr.strip line in
       if existsb (PyStr.startswith line)
            ["show "; "set "; "create "; "delete "; "ip "; "lcp "]
          && (len (PyStr.split line) >=? 2)%Z
          && negb (existsb (fun word => PyStr.str_in word (PyStr.lower line))
                     ["the"; "this"; "these"; "command"; "use"])
       then
         match PyStr.split line with
         | w0 :: w1 :: _ => [w0 ++ " " ++ w1]
         | _ => []
         end
       else [])
    lines.

(** Last loop: strip, drop empty and repeated candidates. *)
Fixpoint unique_commands (seen commands : list string) : list string :=
  match commands with
  | [] => []
  | cmd :: rest =>
      let cmd := PyStr.strip cmd in
      if PyStr.nonempty cmd && negb (PyStr.mem cmd seen)
         && (len (PyStr.split cmd) >=? 1)%Z
      then cmd :: unique_commands (cmd :: seen) rest
      else unique_commands seen rest
  end.

(** [_extract_commands_from_text] *)
Definition _extract_commands_from_text (text : string) : list string :=
  let lines := PyStr.split_sep (String "010"%char EmptyString) text in
  unique_commands []
    (backtick_commands text ++ item_commands lines
     ++ standalone_commands lines)%list.

(** The dict that [validate_ai_response] returns.  [confidence] is the
    exact quotient; the source returns the float nearest to it. *)
Record report : Type := mkReport {
  valid_commands : list string;
  invalid_commands : list string;
  suggestions : dict (list string);
  known_hallucinations : dict hallucination;
  confidence : Q
}.

(** The four accumulators of the loop of [validate_ai_response]. *)
Record scan_state : Type := mkScan {
  st_valid : list string;
  st_invalid : list string;
  st_suggestions : dict (list string);
  st_known : dict hallucination
}.

(** One iteration of the loop.  [None] is a [KeyError] on the verdict. *)
Definition scan_one (db : Sql.table) (st : scan_state) (cmd : string)
  : option scan_state :=
  match _check_known_hallucination cmd with
  | Some hallucination_check =>
      Some (mkScan (st_valid st)
                   (st_invalid st ++ [cmd])%list
                   (dict_set (st_suggestions st) cmd
                      [correct hallucination_check])
                   (dict_set (st_known st) cmd hallucination_check))
  | None =>
      let result := validate_command db cmd in
      match dict_get result "valid" with
      | Some (PBool true) =>
          Some (mkScan (st_valid st ++ [cmd])%list (st_invalid st)
                       (st_suggestions st) (st_known st))
      | Some (PBool false) =>
          match dict_get result "suggestions" with
          | Some (PList l) =>
              Some (mkScan (st_valid st) (st_invalid st ++ [cmd])%list
                           (match l with
                            | [] => st_suggestions st
                            | _ => dict_set (st_suggestions st) cmd l
                            end)
                           (st_known st))
          | _ => None
          end
      | _ => None
      end
  end.

Fixpoint scan_loop (db : Sql.table) (st : scan_state) (cmds : list string)
  : option scan_state :=
  match cmds with
  | [] => Some st
  | cmd :: rest =>
      match scan_one db st cmd with
      | Some st' => scan_loop db st' rest
      | None => None
      end
  end.

(** [validate_ai_response] *)
Definition validate_ai_response (db : Sql.table) (ai_response : string)
  : option report :=
  let potential_commands := _extract_commands_from_text ai_response in
  match scan_loop db (mkScan [] [] [] []) potential_commands with
  | Some st =>
      Some (mkReport (st_valid st) (st_invalid st) (st_suggestions st)
              (st_known st)
              (match potential_commands with
               | [] => 1%Q
               | _ => Qmake (len (st_valid st))
                            (Pos.of_nat (List.length potential_commands))
               end))
  | None => None
  end.

(** ** [VPPctlAgent.get_vpp_completions]

    [stdout] is what [execute_vppctl (query_cmd, timeout=5)] returned; it is
    empty when no dataplane answers.  The database is the one that
    [VPPCommandDatabase()] opens. *)

(** [r'^[a-zA-Z][a-zA-Z0-9_-]*$']; [$] also matches before a final
    newline. *)
Definition completion_word_re : Re.regex :=
  Re.Cat (Re.Cls Re.is_alpha)
    (Re.Cat
       (Re.Star (Re.Cls (fun x => Re.is_alpha x || Re.is_digit x
                                  || Ascii.eqb x "_" || Ascii.eqb x "-")))
       (Re.Alt Re.Eps (Re.chr "010"%char))).

(** The completion words printed by the dataplane. *)
Definition vpp_completion_words (stdout : string) : list string :=
  if PyStr.nonempty stdout then
    flat_map
      (fun line =>
         let line := PyStr.strip line in
         if negb (PyStr.nonempty line) || PyStr.startswith line "DBGvpp"
            || PyStr.startswith line "vpp#"
         then []
         else filter (fun word => PyStr.nonempty word
                                  && Re.fullmatch completion_word_re word)
                     (PyStr.split line))
      (PyStr.split_sep (String "010"%char EmptyString) (PyStr.strip stdout))
  else [].

(** [SELECT DISTINCT path FROM commands WHERE path LIKE ? ORDER BY path
    LIMIT 50] *)
Definition select_distinct_paths (db : Sql.table) (pat : string)
  : list string :=
  firstn 50 (PyStr.unique (map path (Sql.select_path_like db pat))).

(** The abbreviations expanded before the database is queried. *)
Definition expand_abbreviation (part : string) : string :=
  if String.eqb part "int" then "interface"
  else if String.eqb part "addr" then "address"
  else part.

(** The next tokens read off the rows that match the partial command
    followed by a space (source lines 273-329). *)
Definition next_tokens_of_matching (db : Sql.table) (parts : list string)
  : list string :=
  let normalized_parts := map expand_abbreviation parts in
  let search_patterns :=
    [ PyStr.join " " parts ++ " %";
      PyStr.join " " normalized_parts ++ " %" ] in
  let matching_commands :=
    PyStr.unique (flat_map (select_distinct_paths db) search_patterns) in
  let target_len := List.length normalized_parts in
  let next_tokens :=
    flat_map
      (fun cmd =>
         let cmd_parts := PyStr.split cmd in
         if (target_len <? List.length cmd_parts)%nat then
           let next_token := nth target_len cmd_parts EmptyString in
           if (0 <? List.length parts)%nat
              && (List.length parts =? List.length normalized_parts)%nat
           then
             let last_part := last parts EmptyString in
             if negb (PyStr.nonempty last_part)
                || PyStr.startswith next_token last_part
                || PyStr.mem last_part ["int"; "interface"; "addr"; "address"]
             then [next_token] else []
           else [next_token]
         else [])
      matching_commands in
  PyStr.sorted (PyStr.unique next_tokens).

(** The fallback on [get_command_completions] (source lines 335-347). *)
Definition next_tokens_of_fallback (db : Sql.table) (partial_command : string)
  : list string :=
  let db_completions := get_command_completions db partial_command in
  let parts := PyStr.split partial_command in
  let next_tokens :=
    flat_map
      (fun comp =>
         let comp_parts := PyStr.split comp in
         if (List.length parts <? List.length comp_parts)%nat
         then [nth (List.length parts) comp_parts EmptyString] else [])
      (firstn 30 db_completions) in
  PyStr.sorted (PyStr.unique next_tokens).

Definition get_vpp_completions (db : Sql.table) (stdout : string)
  (partial_command : string) : list string :=
  match vpp_completion_words stdout with
  | (_ :: _) as completions => PyStr.sorted (PyStr.unique completions)
  | [] =>
      match PyStr.split (PyStr.strip partial_command) with
      | [] => []
      | parts =>
          match next_tokens_of_matching db parts with
          | (_ :: _) as completions => completions
          | [] =>
              match next_tokens_of_fallback db partial_command with
              | (_ :: _) as tokens => tokens
              | [] => []
              end
          end
      end
  end.

(** ** Vocabulary of the statements *)

(** No whitespace character occurs in [s]. *)
Fixpoint no_space (s : string) : bool :=
  match s with
  | EmptyString => true
  | String c s' => negb (PyStr.isspace c) && no_space s'
  end.

(** A token: a non-empty word without whitespace. *)
Definition is_token (s : string) : bool := PyStr.nonempty s && no_space s.

(** The number of words of a command. *)
Definition word_count (s : string) : Z := len (PyStr.split s).

(** [len(set(valid) | set(invalid))] *)
Definition union_size (valid invalid : list string) : Z :=
  len (PyStr.unique (valid ++ invalid)%list).

(** A catalog row with the given path and help text. *)
Definition signature (p h : string) : VPPCommand :=
  mkVPPCommand p h "fn" "cli.c" "show".

(** The three-signature catalog of the completion example. *)
Definition completion_catalog : Sql.table :=
  [ signature "show interface" "interface summary";
    signature "show interface address" "interface addresses";
    signature "show ip fib" "forwarding table" ].

(** A string that does not begin (resp. end) with whitespace. *)
Definition first_ok (s : string) : bool :=
  match s with
  | EmptyString => true
  | String c _ => negb (PyStr.isspace c)
  end.

Fixpoint last_ok (s : string) : bool :=
  match s with
  | EmptyString => true
  | String c EmptyString => negb (PyStr.isspace c)
  | String _ s' => last_ok s'
  end.

(** The singular forms that [_normalize_command] can write. *)
Definition singulars : list string := map snd normalizations.

(** [l1] is a proper prefix of [l2]. *)
Definition proper_prefix (l1 l2 : list string) : Prop :=
  exists t, t <> [] /\ l2 = (l1 ++ t)%list.

(** The rows that the structural loop accepts for [cmd]: the path begins
    with [base_cmd] and has as many words as [cmd], or one fewer. *)
Definition structural_fit (cmd : string) (m : VPPCommand) : bool :=
  PyStr.startswith (path m) (base_cmd cmd)
  && ((word_count (path m) =? word_count cmd)%Z
      || (word_count (path m) =? word_count cmd - 1)%Z).

(** Rows of the examples. *)
Definition show_interface : VPPCommand :=
  signature "show interface" "interface summary".
Definition show_version : VPPCommand :=
  signature "show version" "version of the dataplane".
Definition show_interface_address_detail : VPPCommand :=
  signature "show interface address detail" "addresses in detail".
Definition trace_add : VPPCommand := signature "trace add" "add a trace".
Definition trace_add_node_count : VPPCommand :=
  signature "trace add <node> <count>" "add a trace of count packets".

Definition trace_add_filter : VPPCommand :=
  signature "trace add filter" "add a filtered trace".

(** The candidate [cmd] has been filed as the known hallucination [h]. *)
Definition flagged (cmd : string) (h : hallucination) (st : scan_state)
  : Prop :=
  In cmd (st_invalid st)
  /\ dict_get (st_known st) cmd = Some h
  /\ dict_get (st_suggestions st) cmd = Some [correct h].

(** ** The rest of [class VPPCLIParser] and [class VPPCommandDatabase] *)

(** [VPPCLIParser._categorize_command] *)
Definition _categorize_command (cmd_path : string) : string :=
  let path_lower := PyStr.lower cmd_path in
  if PyStr.startswith path_lower "show" then
    if PyStr.str_in "interface" path_lower then "interfaces"
    else if PyStr.str_in "ip" path_lower && PyStr.str_in "fib" path_lower
    then "routing"
    else if PyStr.str_in "ipsec" path_lower then "ipsec"
    else if PyStr.str_in "version" path_lower
            || PyStr.str_in "build" path_lower
    then "system"
    else "show"
  else if PyStr.startswith path_lower "set" then
    if PyStr.str_in "interface" path_lower then "interfaces"
    else "configuration"
  else if PyStr.startswith path_lower "create" then "configuration"
  else if PyStr.startswith path_lower "delete" then "configuration"
  else if PyStr.startswith path_lower "ip route" then "routing"
  else if PyStr.startswith path_lower "lcp" then "lcp"
  else "other".

(** The values that [_categorize_command] can return. *)
Definition categories : list string :=
  [ "interfaces"; "routing"; "ipsec"; "system"; "show"; "configuration";
    "lcp"; "other" ].

(** [INSERT OR REPLACE INTO commands ..] of one row: the rows that
    conflict on the [UNIQUE] column [path] are deleted, then the row is
    inserted. *)
Definition insert_or_replace (db : Sql.table) (cmd : VPPCommand) : Sql.table :=
  (filter (fun r => negb (String.eqb (path r) (path cmd))) db ++ [cmd])%list.

(** [save_commands]: [executemany] runs the statement once per command,
    in order. *)
Definition save_commands (db : Sql.table) (commands : list VPPCommand)
  : Sql.table :=
  fold_left insert_or_replace commands db.

(** [LIMIT n]: a negative [n] means no limit. *)
Definition sql_limit {A : Type} (n : Z) (l : list A) : list A :=
  if (n <? 0)%Z then l else firstn (Z.to_nat n) l.

(** [search_commands]; the source's default for [limit] is 10. *)
Definition search_commands (db : Sql.table) (query : string) (limit : Z)
  : list (dict pyval) :=
  let pat := "%" ++ query ++ "%" in
  map (fun row =>
         [ ("path", PStr (path row)); ("help", PStr (short_help row));
           ("category", PStr (category row)) ])
      (sql_limit limit
         (Sql.order_by_path
            (filter (fun r => Sql.like pat (path r)
                              || Sql.like pat (short_help r)) db))).

(** [get_commands_by_category] *)
Definition get_commands_by_category (db : Sql.table) (cat : string)
  : list (dict pyval) :=
  map (fun row => [ ("path", PStr (path row)); ("help", PStr (short_help row)) ])
      (Sql.order_by_path (filter (fun r => String.eqb (category r) cat) db)).

(** ** [class VPPAutocompleter] ([src/vpp_ai_enhanced.py]) *)

(** [complete_command] *)
Definition complete_command (db : Sql.table) (partial : string) : list string :=
  get_command_completions db partial.

(** [get_help_for_command].  The outer [None] is a [KeyError]; the inner
    option is the [Optional[str]] of the source. *)
Definition get_help_for_command (db : Sql.table) (command : string)
  : option (option string) :=
  let result := validate_command db command in
  match dict_get result "valid" with
  | Some (PBool true) =>
      match dict_get result "help" with
      | Some (PStr h) => Some (Some h)
      | _ => None
      end
  | Some (PBool false) => Some None
  | _ => None
  end.

(** [suggest_similar_commands]: [result.get('suggestions', [])] *)
Definition suggest_similar_commands (db : Sql.table) (invalid_command : string)
  : pyval :=
  match dict_get (validate_command db invalid_command) "suggestions" with
  | Some v => v
  | None => PList []
  end.

(** ** More of [class VPPctlAgent] ([src/main.py]) *)

Module ReExt.

(** [\w] on code points below 256: [str.isalnum] or the underscore. *)
Definition is_word (x : ascii) : bool :=
  let n := PyStr.code x in
  (((48 <=? n) && (n <=? 57)) || ((65 <=? n) && (n <=? 90)) || (n =? 95)
   || ((97 <=? n) && (n <=? 122))
   || (n =? 170) || (n =? 178) || (n =? 179) || (n =? 181) || (n =? 185)
   || (n =? 186) || (n =? 188) || (n =? 189) || (n =? 190)
   || ((192 <=? n) && (n <=? 214)) || ((216 <=? n) && (n <=? 246))
   || ((248 <=? n) && (n <=? 255)))%nat.

(** [\b] between a character that is or is not a word character
    ([prev_word]; false at the start) and the rest [s] of the text. *)
Definition at_boundary (prev_word : bool) (s : string) : bool :=
  xorb prev_word
       (match s with
        | EmptyString => false
        | String c _ => is_word c
        end).

(** [bool(re.search(r'\b' + r, s))] *)
Fixpoint search_b_go (r : Re.regex) (prev_word : bool) (s : string) : bool :=
  (at_boundary prev_word s && Re.match_ r s)
  || match s with
     | EmptyString => false
     | String c s' => search_b_go r (is_word c) s'
     end.

Definition search_b (r : Re.regex) (s : string) : bool :=
  search_b_go r false s.

(** [bool(re.match(r + '$', s))]: [$] holds at the end of the text and
    before a newline that ends it. *)
Definition match_end (r : Re.regex) (s : string) : bool :=
  Re.fullmatch (Re.Cat r (Re.Alt Re.Eps (Re.chr "010"%char))) s.

(** [\s+] and [\d+] *)
Definition spaces : Re.regex := Re.plus (Re.Cls Re.is_space).
Definition digits : Re.regex := Re.plus (Re.Cls Re.is_digit).

(** The concatenation of a list of patterns. *)
Definition seq (l : list Re.regex) : Re.regex := fold_right Re.Cat Re.Eps l.

(** [x?] *)
Definition opt (r : Re.regex) : Re.regex := Re.Alt r Re.Eps.

End ReExt.

(** [_is_vpp_error] *)
Definition error_patterns : list string :=
  [ "unknown input"; "unknown command"; "invalid"; "failed"; "error:";
    "not found"; "does not exist"; "no such" ].

Definition _is_vpp_error (output : string) : bool :=
  if negb (PyStr.nonempty output) then false
  else
    let output_lower := PyStr.lower output in
    existsb (fun pattern => PyStr.str_in pattern output_lower) error_patterns.

(** The locals [vpp_verbs] of [_is_likely_vpp_command] and
    [_try_correct_typo]. *)
Definition vpp_verbs : list string :=
  [ "show"; "set"; "create"; "delete"; "ip"; "lcp"; "trace"; "clear"; "pcap" ].

Definition has_vpp_verb (input_lower : string) : bool :=
  existsb (fun verb => PyStr.startswith input_lower verb) vpp_verbs.

(** [vpp_patterns] of [_is_likely_vpp_command], each with [re.match]. *)
Definition show_objects : Re.regex :=
  Re.alts
    [ Re.lit "version";
      Re.Cat (Re.lit "interface") (ReExt.opt (Re.chr "s"));
      Re.Cat (Re.lit "int")
             (ReExt.opt (Re.Alt (Re.Cat ReExt.spaces (Re.lit "addr"))
                                (Re.Cat ReExt.spaces (Re.lit "address"))));
      ReExt.seq [Re.lit "interface"; ReExt.spaces; Re.lit "address"];
      ReExt.seq [Re.lit "ip"; ReExt.spaces; Re.lit "fib"];
      ReExt.seq [Re.lit "ipsec"; ReExt.spaces;
                 Re.alts [Re.lit "sa"; Re.lit "spd"; Re.lit "tunnel"]];
      Re.lit "lcp"; Re.lit "errors"; Re.lit "run" ].

Definition matches_vpp_pattern (input_lower : string) : bool :=
  let show_core := ReExt.seq [Re.lit "show"; ReExt.spaces; show_objects] in
  (Re.match_ (Re.Cat show_core (Re.Cls Re.is_space)) input_lower
   || ReExt.match_end show_core input_lower)
  || Re.match_
       (ReExt.seq [Re.lit "show"; ReExt.spaces; Re.lit "ip"; ReExt.spaces;
                   Re.lit "fib"; ReExt.spaces]) input_lower
  || Re.match_
       (ReExt.seq [Re.lit "set"; ReExt.spaces; Re.lit "interface";
                   ReExt.spaces;
                   Re.Alt (Re.lit "state")
                          (ReExt.seq [Re.lit "ip"; ReExt.spaces;
                                      Re.lit "address"]);
                   ReExt.spaces]) input_lower
  || Re.match_
       (ReExt.seq [Re.lit "ip"; ReExt.spaces; Re.lit "route"; ReExt.spaces;
                   Re.lit "add"; ReExt.spaces]) input_lower
  || Re.match_
       (ReExt.seq [Re.lit "create"; ReExt.spaces; Re.lit "ipsec";
                   ReExt.spaces; Re.lit "tunnel"]) input_lower
  || ReExt.match_end
       (ReExt.seq [Re.lit "lcp"; ReExt.spaces; Re.lit "lcp-sync";
                   ReExt.spaces; Re.Alt (Re.lit "on") (Re.lit "off")])
       input_lower
  || Re.match_ (ReExt.seq [Re.lit "delete"; ReExt.spaces]) input_lower.

(** [natural_words]: looked for as substrings of the text. *)
Definition natural_words : list string :=
  [ "what"; "how"; "why"; "explain"; "tell"; "show me"; "can you";
    "please"; "help me"; "i need"; "i want"; "give me"; "let me";
    "could you"; "would you"; "do you"; "are there"; "is there" ].

Definition has_natural_word (input_lower : string) : bool :=
  existsb (fun word => PyStr.str_in word input_lower) natural_words.

(** [natural_language_words]: looked for among the words of the text. *)
Definition natural_language_words : list string :=
  [ "the"; "a"; "an"; "and"; "or"; "me"; "you"; "please"; "can"; "could";
    "would" ].

Definition has_function_word (words : list string) : bool :=
  existsb (fun word => PyStr.mem word natural_language_words) words.

(** [ip_pattern = r'\d+\.\d+\.\d+\.\d+'] *)
Definition ip_pattern : Re.regex :=
  ReExt.seq [ReExt.digits; Re.chr "."; ReExt.digits; Re.chr ".";
             ReExt.digits; Re.chr "."; ReExt.digits].

(** [interface_pattern], without its leading [\b]. *)
Definition interface_pattern : Re.regex :=
  Re.Cat
    (Re.alts (map Re.lit
       ["eth"; "gigabit"; "ge"; "tun"; "tap"; "vpp"; "local"; "bond";
        "vlan"; "vxlan"]))
    ReExt.digits.

(** [_is_likely_vpp_command] *)
Definition _is_likely_vpp_command (input_text : string) : bool :=
  let input_lower := PyStr.strip (PyStr.lower input_text) in
  if matches_vpp_pattern input_lower then true
  else if has_natural_word input_lower then false
  else if has_vpp_verb input_lower then
    let words := PyStr.split input_lower in
    if has_function_word words then false
    else if Re.search ip_pattern input_lower
            || ReExt.search_b interface_pattern input_lower
    then true
    else if (len words <=? 4)%Z then true
    else if negb (has_function_word words) then true
    else false
  else false.

(** [abbrev_map] of [_try_correct_typo], in the order of the dict
    literal. *)
Definition abbrev_map : dict string :=
  [ ("adr", "addr"); ("adress", "address"); ("interfaces", "interface");
    ("interaces", "interface"); ("int", "interface"); ("ver", "version");
    ("verson", "version") ].

(** The word-by-word test of a suggestion against the input:
    [matches >= len(input_words) / 2], where [matches] counts the
    positions at which the two words are equal or one contains the
    other. *)
Definition suggestion_close (input_words sugg_words : list string) : bool :=
  let matches :=
    List.length
      (filter (fun ws : string * string =>
                 String.eqb (fst ws) (snd ws)
                 || PyStr.str_in (fst ws) (snd ws)
                 || PyStr.str_in (snd ws) (fst ws))
              (combine input_words sugg_words)) in
  (len input_words <=? 2 * Z.of_nat matches)%Z.

(** The block on [result.get('suggestions')] (source lines 1672-1693);
    [None] when it returns nothing.  A verdict holds a list under
    ['suggestions']. *)
Definition correct_from_suggestions (input_words : list string)
  (result : dict pyval) : option string :=
  match dict_get result "suggestions" with
  | Some (PList ((first_suggestion :: _) as suggestions)) =>
      match
        find (fun suggestion =>
                match input_words, PyStr.split (PyStr.lower suggestion) with
                | w :: _, sw :: _ =>
                    String.eqb w sw
                    && suggestion_close input_words
                         (PyStr.split (PyStr.lower suggestion))
                | _, _ => false
                end)
             suggestions
      with
      | Some suggestion => Some suggestion
      | None =>
          match input_words with
          | w :: _ =>
              if PyStr.startswith (PyStr.lower first_suggestion) w
              then Some first_suggestion else None
          | [] => None
          end
      end
  | _ => None
  end.

(** The loop over [similar[:3]] (source lines 1701-1712).  A missing
    ['path'] is a [KeyError], which the enclosing [try] turns into
    [None]. *)
Fixpoint correct_from_search (words : list string)
  (similar : list (dict pyval)) : option string :=
  match similar with
  | [] => None
  | cmd_info :: rest =>
      match dict_get cmd_info "path" with
      | Some (PStr cmd) =>
          let cmd_words := PyStr.split (PyStr.lower cmd) in
          if (len cmd_words >=? len words)%Z
             && (if list_eq_dec string_dec
                      (firstn (List.length words - 1) cmd_words)
                      (firstn (List.length words - 1) words)
                 then true else false)
             && (List.length words =? List.length cmd_words)%nat
          then Some cmd
          else correct_from_search words rest
      | _ => None
      end
  end.

(** [_try_correct_typo]; the database is the one that
    [VPPCommandDatabase()] opens. *)
Definition _try_correct_typo (db : Sql.table) (input_text : string)
  : option string :=
  let input_lower := PyStr.strip (PyStr.lower input_text) in
  if negb (has_vpp_verb input_lower) then None
  else
    let words := PyStr.split input_lower in
    let normalized_words :=
      map (fun word =>
             match dict_get abbrev_map word with
             | Some full => full
             | None => word
             end) words in
    let normalized_input := PyStr.join " " normalized_words in
    match dict_get (validate_command db normalized_input) "valid" with
    | Some (PBool true) => Some normalized_input
    | Some (PBool false) =>
        let result := validate_command db input_text in
        match dict_get result "valid" with
        | Some (PBool true) => Some input_text
        | Some (PBool false) =>
            match correct_from_suggestions words result with
            | Some c => Some c
            | None =>
                match words with
                | w0 :: w1 :: _ =>
                    correct_from_search words
                      (firstn 3 (search_commands db (w0 ++ " " ++ w1) 10))
                | _ => None
                end
            end
        | _ => None
        end
    | _ => None
    end.

(** Truthiness of a value. *)
Definition truthy (v : pyval) : bool :=
  match v with
  | PBool b => b
  | PStr s => PyStr.nonempty s
  | PList l => match l with [] => false | _ => true end
  end.

(** [_parse_interfaces]: the rows of a [show interfaces] table. *)
Definition _parse_interfaces (output : string) : list (dict pyval) :=
  flat_map
    (fun line =>
       if PyStr.nonempty (PyStr.strip line)
          && negb (PyStr.startswith line "Name")
          && negb (PyStr.startswith line "interface")
          && negb (PyStr.str_in "Idx" line)
          && negb (PyStr.str_in "State" line)
          && negb (PyStr.startswith line " ")
       then
         match PyStr.split line with
         | p0 :: p1 :: p2 :: p3 :: rest =>
             [ [ ("name", PStr p0); ("idx", PStr p1); ("state", PStr p2);
                 ("mtu", PStr p3); ("flags", PStr (PyStr.join " " rest)) ] ]
         | _ => []
         end
       else [])
    (PyStr.split_sep (String "010"%char EmptyString) (PyStr.strip output)).

(** [_get_interface_names]; [stdout] is what
    [execute_vppctl("show interfaces")] returned. *)
Definition _get_interface_names (stdout : string) : list pyval :=
  flat_map
    (fun iface =>
       match dict_get iface "name" with
       | Some v => if truthy v then [v] else []
       | None => []
       end)
    (_parse_interfaces stdout).

(** No character of [s] is the code point 0. *)
Fixpoint nul_free (s : string) : bool :=
  match s with
  | EmptyString => true
  | String c s' => negb (PyStr.code c =? 0)%nat && nul_free s'
  end.

(** The number of bytes of [s] in UTF-8: one for a code point below 128,
    two for the others below 256. *)
Fixpoint utf8_length (s : string) : Z :=
  match s with
  | EmptyString => 0%Z
  | String c s' =>
      ((if (PyStr.code c <? 128)%nat then 1 else 2) + utf8_length s')%Z
  end.

(** The integers that SQLite binds: signed 64-bit. *)
Definition int64 (n : Z) : Prop := (- 2 ^ 63 <= n < 2 ^ 63)%Z.

(** Every character of [s] is an ASCII character. *)
Fixpoint is_ascii (s : string) : bool :=
  match s with
  | EmptyString => true
  | String c s' => (PyStr.code c <? 128)%nat && is_ascii s'
  end.

(** Code-point order on strings, as [sorted] and [ORDER BY path] use it. *)
Definition in_order (a b : string) : Prop := String.leb a b = true.

(** The ['path'] entry of a result dict. *)
Definition result_path (d : dict pyval) : string :=
  match dict_get d "path" with
  | Some (PStr p) => p
  | _ => EmptyString
  end.

(** A pattern that cannot tell a character from its lower-case form. *)
Fixpoint case_blind (r : Re.regex) : Prop :=
  match r with
  | Re.Void | Re.Eps => True
  | Re.Cls p => forall x, p (PyStr.lower_char x) = p x
  | Re.Cat r1 r2 | Re.Alt r1 r2 => case_blind r1 /\ case_blind r2
  | Re.Star r1 => case_blind r1
  end.

(** The accumulators of the scan only name candidates filed as invalid. *)
Definition keys_invalid (st : scan_state) : Prop :=
  (forall k, dict_has (st_known st) k = true -> In k (st_invalid st))
  /\ (forall k, dict_has (st_suggestions st) k = true -> In k (st_invalid st)).

(** * Properties *)

(** ** Words, joins and strips *)

Section Words.

Import PyStr.

Lemma append_empty_r (s : string) : s ++ "" = s.
Proof. induction s as [|c s IH]; simpl; [reflexivity | now rewrite IH]. Qed.

Lemma append_assoc (a b c : string) : (a ++ b) ++ c = a ++ (b ++ c).
Proof. induction a as [|x a IH]; simpl; [reflexivity | now rewrite IH]. Qed.

Lemma nonempty_append_r (a b : string) :
  nonempty b = true -> nonempty (a ++ b) = true.
Proof. destruct a; simpl; auto. Qed.

Lemma no_space_append (a b : string) :
  no_space (a ++ b) = no_space a && no_space b.
Proof.
  induction a as [|c a IH]; simpl; [reflexivity|].
  now rewrite IH, andb_assoc.
Qed.

(** Reading a word: its characters move to the accumulator. *)
Lemma split_go_word (w rest acc : string) :
  no_space w = true ->
  split_go (w ++ rest) acc = split_go rest (acc ++ w).
Proof.
  revert acc. induction w as [|c w IH]; intros acc Hw; simpl in *.
  - now rewrite append_empty_r.
  - apply andb_prop in Hw as [Hc Hw].
    apply negb_true_iff in Hc. rewrite Hc, IH by assumption.
    now rewrite append_assoc.
Qed.

(** Every word that [split] yields is a token. *)
Lemma split_go_tokens (s acc : string) :
  no_space acc = true -> Forall (fun w => is_token w = true) (split_go s acc).
Proof.
  revert acc. induction s as [|c s IH]; intros acc Hacc; simpl.
  - destruct (nonempty acc) eqn:E; constructor; auto.
    unfold is_token. now rewrite E, Hacc.
  - destruct (isspace c) eqn:Hc.
    + destruct (nonempty acc) eqn:E.
      * constructor; [unfold is_token; now rewrite E, Hacc | now apply IH].
      * now apply IH.
    + apply IH. rewrite no_space_append, Hacc. simpl. now rewrite Hc.
Qed.

Lemma split_tokens (s : string) :
  Forall (fun w => is_token w = true) (split s).
Proof. now apply split_go_tokens. Qed.

(** [split] undoes [join] on tokens. *)
Lemma split_join (ws : list string) :
  Forall (fun w => is_token w = true) ws -> split (join " " ws) = ws.
Proof.
  unfold split. induction ws as [|w ws IH]; intros H; [reflexivity|].
  inversion H as [|? ? Hw Hws]; subst.
  apply andb_prop in Hw as [Hne Hns].
  destruct ws as [|w' ws].
  - simpl. rewrite <- (append_empty_r w) at 1.
    rewrite split_go_word by assumption. simpl. now rewrite Hne.
  - change (join " " (w :: w' :: ws)) with (w ++ " " ++ join " " (w' :: ws)).
    rewrite split_go_word by assumption.
    cbn [append split_go]. change (isspace " ") with true. cbn iota.
    rewrite Hne. f_equal. now apply IH.
Qed.

Lemma lstrip_fixed (s : string) : first_ok s = true -> lstrip s = s.
Proof.
  destruct s as [|c s]; simpl; [reflexivity|].
  intros H. apply negb_true_iff in H. now rewrite H.
Qed.

Lemma rstrip_fixed (s : string) : last_ok s = true -> rstrip s = s.
Proof.
  induction s as [|c s IH]; [reflexivity|].
  intros H. destruct s as [|d s].
  - simpl in *. apply negb_true_iff in H. now rewrite H.
  - change (last_ok (String c (String d s))) with (last_ok (String d s)) in H.
    specialize (IH H).
    change (rstrip (String c (String d s)))
      with (match rstrip (String d s) with
            | EmptyString =>
                if isspace c then EmptyString else String c EmptyString
            | r => String c r
            end).
    now rewrite IH.
Qed.

Lemma strip_fixed (s : string) :
  first_ok s = true -> last_ok s = true -> strip s = s.
Proof.
  intros Hf Hl. unfold strip. rewrite lstrip_fixed by assumption.
  now apply rstrip_fixed.
Qed.

Lemma last_ok_append (a b : string) :
  nonempty b = true -> last_ok (a ++ b) = last_ok b.
Proof.
  intros Hb. induction a as [|c a IH]; [reflexivity|].
  simpl append.
  destruct (a ++ b) as [|d r] eqn:E.
  - destruct a; destruct b; simpl in *; discriminate.
  - simpl. exact IH.
Qed.

Lemma token_last_ok (w : string) : is_token w = true -> last_ok w = true.
Proof.
  intros H. apply andb_prop in H as [_ H].
  induction w as [|c w IH]; [reflexivity|].
  simpl in H. apply andb_prop in H as [Hc Hw].
  destruct w; simpl; auto.
Qed.

Lemma token_first_ok (w : string) : is_token w = true -> first_ok w = true.
Proof.
  intros H. apply andb_prop in H as [_ H].
  destruct w; simpl in *; auto. now apply andb_prop in H as [Hc _].
Qed.

Lemma first_ok_append (a b : string) :
  nonempty a = true -> first_ok (a ++ b) = first_ok a.
Proof. destruct a; simpl; [discriminate | reflexivity]. Qed.

Lemma join_tokens_shape (ws : list string) :
  ws <> [] -> Forall (fun w => is_token w = true) ws ->
  nonempty (join " " ws) = true
  /\ first_ok (join " " ws) = true /\ last_ok (join " " ws) = true.
Proof.
  induction ws as [|w ws IH]; intros Hne H; [congruence|].
  inversion H as [|? ? Hw Hws]; subst.
  pose proof Hw as Hw'. apply andb_prop in Hw' as [Hn _].
  destruct ws as [|w' ws].
  - simpl. auto using token_first_ok, token_last_ok.
  - destruct IH as (IH1 & IH2 & IH3); [discriminate | assumption |].
    change (join " " (w :: w' :: ws)) with (w ++ " " ++ join " " (w' :: ws)).
    repeat split.
    + destruct w; [discriminate | reflexivity].
    + rewrite first_ok_append by assumption. now apply token_first_ok.
    + rewrite last_ok_append by (now apply nonempty_append_r).
      rewrite last_ok_append by assumption. assumption.
Qed.

Lemma strip_join_tokens (ws : list string) :
  Forall (fun w => is_token w = true) ws ->
  strip (join " " ws) = join " " ws.
Proof.
  intros H. destruct ws as [|w ws]; [reflexivity|].
  destruct (join_tokens_shape (w :: ws)) as (_ & Hf & Hl);
    [discriminate | assumption |].
  now apply strip_fixed.
Qed.

End Words.

(** ** The normalizer *)

Section Normalizer.

Import PyStr.

Lemma dict_get_normalizations (w s : string) :
  dict_get normalizations w = Some s -> In s singulars.
Proof.
  unfold normalizations, singulars. cbn [dict_get map snd].
  repeat match goal with
         | |- context [String.eqb ?a w] =>
             destruct (String.eqb a w);
             [intros H; injection H as <-; cbn; tauto|]
         end.
  discriminate.
Qed.

Lemma find_normalizations (f : string * string -> bool) (p s : string) :
  find f normalizations = Some (p, s) -> In s singulars.
Proof.
  intros H. apply find_some in H as [H _].
  unfold singulars. change s with (snd (p, s)). now apply in_map.
Qed.

(** A command whose second word is already a singular form is left as it
    is. *)
Lemma normalize_singular (w0 s : string) (rest : list string) :
  is_token w0 = true ->
  Forall (fun w => is_token w = true) rest ->
  In s singulars ->
  _normalize_command (join " " (w0 :: s :: rest)) = join " " (w0 :: s :: rest).
Proof.
  intros H0 Hrest Hs. unfold _normalize_command.
  rewrite split_join.
  - cbn in Hs. decompose [or] Hs; subst; try contradiction; reflexivity.
  - constructor; [assumption|]. constructor; [|assumption].
    cbn in Hs. decompose [or] Hs; subst; try contradiction; reflexivity.
Qed.

End Normalizer.

(** C8 -- The normalizer is idempotent on every command string, hence on
    every token sequence: normalizing a second time changes nothing, also
    when the first pass went through the prefix-based fallback on the
    second word. *)
Theorem normalize_idempotent (command : string) :
  _normalize_command (_normalize_command command) = _normalize_command command.
Proof.
  pose proof (split_tokens command) as Htok.
  destruct (PyStr.split command) as [|w0 [|w1 rest]] eqn:E.
  - assert (H : _normalize_command command = command)
      by (unfold _normalize_command; now rewrite E).
    now rewrite !H.
  - assert (H : _normalize_command command = command)
      by (unfold _normalize_command; now rewrite E).
    now rewrite !H.
  - inversion Htok as [|? ? H0 Ht]; subst.
    inversion Ht as [|? ? H1 Hrest]; subst.
    unfold _normalize_command at 2 3. rewrite E.
    destruct (dict_get normalizations w1) as [s|] eqn:Hd.
    + apply normalize_singular; eauto using dict_get_normalizations.
    + match goal with
      | |- context [find ?f normalizations] =>
          destruct (find f normalizations) as [[p s]|] eqn:Hf
      end.
      * apply normalize_singular; eauto using find_normalizations.
      * unfold _normalize_command. rewrite E, Hd, Hf. reflexivity.
Qed.

(** ** Queries on the table *)

Section Queries.

Variable db : Sql.table.

Lemma select_path_eq_sound (q : string) (r : VPPCommand) :
  Sql.select_path_eq db q = Some r -> In r db /\ path r = q.
Proof.
  intros H. apply find_some in H as [Hin Heq].
  split; [assumption | now apply String.eqb_eq].
Qed.

Lemma select_path_eq_complete (q : string) :
  In q (map path db) -> exists r, Sql.select_path_eq db q = Some r.
Proof.
  intros H. apply in_map_iff in H as (r & Hr & Hin).
  destruct (Sql.select_path_eq db q) as [r'|] eqn:E; [eauto|].
  unfold Sql.select_path_eq in E.
  apply (find_none _ _ E) in Hin. apply String.eqb_neq in Hin. contradiction.
Qed.

(** Under the [UNIQUE] constraint the row found for the path of a stored
    row is that row. *)
Lemma select_path_eq_unique (s : VPPCommand) :
  Sql.unique_paths db -> In s db -> Sql.select_path_eq db (path s) = Some s.
Proof.
  unfold Sql.unique_paths, Sql.select_path_eq.
  induction db as [|r l IH]; intros Hu Hin; [contradiction|].
  cbn [map] in Hu. inversion Hu as [|? ? Hnotin Hu']; subst.
  cbn [find]. destruct (String.eqb_spec (path r) (path s)) as [Heq|Hne].
  - destruct Hin as [->|Hin]; [reflexivity|].
    exfalso. apply Hnotin. rewrite Heq. now apply in_map.
  - destruct Hin as [->|Hin]; [congruence | now apply IH].
Qed.

Lemma in_insert_row (x r : VPPCommand) (l : Sql.table) :
  In x (Sql.insert_row r l) <-> x = r \/ In x l.
Proof.
  induction l as [|y l IH]; cbn [Sql.insert_row].
  - cbn. intuition congruence.
  - destruct (String.leb (path r) (path y)); cbn [In]; rewrite ?IH;
      intuition congruence.
Qed.

Lemma in_order_by_path (x : VPPCommand) (l : Sql.table) :
  In x (Sql.order_by_path l) <-> In x l.
Proof.
  induction l as [|y l IH]; [reflexivity|].
  cbn [Sql.order_by_path fold_right]. rewrite in_insert_row.
  fold (Sql.order_by_path l). rewrite IH. cbn. intuition congruence.
Qed.

Lemma in_select_path_like (pat : string) (x : VPPCommand) :
  In x (Sql.select_path_like db pat)
  <-> In x db /\ Sql.like pat (path x) = true.
Proof.
  unfold Sql.select_path_like. rewrite in_order_by_path.
  apply filter_In.
Qed.

End Queries.

Lemma like_percent (pat a b : string) :
  Sql.like pat b = true -> Sql.like (String "%"%char pat) (a ++ b) = true.
Proof.
  intros H. induction a as [|c a IH].
  - destruct b; cbn in *; now rewrite H.
  - cbn in *. rewrite IH. apply orb_true_r.
Qed.

(** [LIKE 'p%'] holds of every string that begins with [p], whatever
    wildcards [p] contains. *)
Lemma like_prefix (p rest : string) :
  Sql.like (p ++ "%") (p ++ rest) = true.
Proof.
  revert rest. induction p as [|c p IH]; intros rest.
  - cbn [append]. rewrite <- (append_empty_r rest).
    now apply like_percent.
  - destruct (Ascii.eqb_spec c "%"%char) as [->|Hc].
    + apply (like_percent (p ++ "%") (String "%"%char "") (p ++ rest)), IH.
    + cbn [append Sql.like].
      apply Ascii.eqb_neq in Hc. rewrite Hc, IH, Ascii.eqb_refl.
      now rewrite orb_true_r.
Qed.

Lemma startswith_split (s p : string) :
  PyStr.startswith s p = true -> exists rest, s = p ++ rest.
Proof.
  unfold PyStr.startswith. revert s.
  induction p as [|c p IH]; intros s H.
  - exists s. reflexivity.
  - destruct s as [|d s]; cbn in H; [discriminate|].
    destruct (ascii_dec c d) as [->|]; [|discriminate].
    destruct (IH s H) as [rest ->]. now exists rest.
Qed.

(** C1 -- Validating the joined token path of a stored signature takes the
    exact-match return and yields that signature: valid, no [similar] or
    [normalized] mark, and its path, help text and category. *)
Theorem validate_exact_roundtrip
  (db : Sql.table) (s : VPPCommand) (tokens : list string) :
  Sql.unique_paths db ->
  In s db ->
  tokens <> [] ->
  Forall (fun w => is_token w = true) tokens ->
  path s = PyStr.join " " tokens ->
  validate_outcome db (PyStr.join " " tokens) = Exact s
  /\ validate_command db (PyStr.join " " tokens)
     = [ ("valid", PBool true); ("path", PStr (path s));
         ("help", PStr (short_help s)); ("category", PStr (category s)) ].
Proof.
  intros Hu Hin Hne Htok Hpath.
  assert (E : validate_outcome db (PyStr.join " " tokens) = Exact s).
  { unfold validate_outcome.
    rewrite strip_join_tokens by assumption.
    destruct (join_tokens_shape tokens Hne Htok) as (Hn & _ & _).
    rewrite Hn. cbn [negb]. rewrite <- Hpath.
    now rewrite select_path_eq_unique. }
  split; [exact E|]. unfold validate_command. now rewrite E.
Qed.

Lemma validate_exact_roundtrip_witness :
  validate_command completion_catalog "show ip fib"
  = [ ("valid", PBool true); ("path", PStr "show ip fib");
      ("help", PStr "forwarding table"); ("category", PStr "show") ].
Proof.
  refine (proj2 (validate_exact_roundtrip completion_catalog
                   (signature "show ip fib" "forwarding table")
                   ["show"; "ip"; "fib"] _ _ _ _ _)).
  - unfold Sql.unique_paths. cbn.
    repeat constructor; cbn; intuition discriminate.
  - cbn. tauto.
  - discriminate.
  - repeat constructor.
  - reflexivity.
Defined.

(** C7 (as the code has it) -- The exact lookup finds a row precisely when
    some stored path is the queried string, character for character; the
    row found has that path, so its word list is never a proper extension
    of the query's. *)
Theorem exact_lookup_is_string_equality (db : Sql.table) (q : string) :
  ((exists r, Sql.select_path_eq db q = Some r) <-> In q (map path db))
  /\ (forall r, Sql.select_path_eq db q = Some r ->
        In r db /\ path r = q
        /\ ~ proper_prefix (PyStr.split q) (PyStr.split (path r))).
Proof.
  split.
  - split.
    + intros [r H]. apply select_path_eq_sound in H as [Hin <-].
      now apply in_map.
    + apply select_path_eq_complete.
  - intros r H. apply select_path_eq_sound in H as [Hin Hp].
    repeat split; try assumption.
    rewrite Hp. intros (t & Ht & Heq).
    apply (f_equal (@List.length string)) in Heq.
    rewrite length_app in Heq. destruct t; [congruence | cbn in Heq; lia].
Qed.

Lemma exact_lookup_is_string_equality_witness :
  Sql.select_path_eq completion_catalog "show interface"
  = Some (signature "show interface" "interface summary")
  /\ path (signature "show interface" "interface summary") = "show interface".
Proof.
  split; [reflexivity|].
  exact (proj1 (proj2 (proj2 (exact_lookup_is_string_equality
                         completion_catalog "show interface") _ eq_refl))).
Defined.

(** C7 (as stated) fails: letter case matters to the exact lookup.  The
    query differs from a stored path only in case and is not found. *)
Lemma exact_lookup_case_sensitive :
  PyStr.split (PyStr.lower "SHOW INTERFACE")
  = PyStr.split (PyStr.lower (path show_interface))
  /\ Sql.select_path_eq [show_interface] "SHOW INTERFACE" = None
  /\ validate_outcome [show_interface] "SHOW INTERFACE"
     = Fuzzy show_interface.
Proof. vm_compute. repeat split. Qed.

(** ** The returns of [validate_command] *)

Lemma structural_ok_fit (cmd : string) (m : VPPCommand) :
  structural_ok (base_cmd cmd) (len (PyStr.split cmd)) m = structural_fit cmd m.
Proof.
  unfold structural_ok, structural_fit, word_count.
  destruct (PyStr.startswith (path m) (base_cmd cmd)); cbn [andb];
    [|reflexivity].
  set (a := len (PyStr.split (path m))). set (b := len (PyStr.split cmd)).
  destruct (Z.eqb_spec a b), (Z.eqb_spec a (b - 1)), (Z.leb_spec (Z.abs (a - b)) 1);
    cbn; try reflexivity; lia.
Qed.

Lemma structural_step_rows (db : Sql.table) (cmd : string) (o : outcome) :
  structural_step db cmd = Some o ->
  (exists m, o = Structural m /\ In m db /\ structural_fit cmd m = true)
  \/ o = StructuralFail (Sql.select_path_like db (base_cmd cmd ++ "%")).
Proof.
  unfold structural_step.
  destruct (_ || _); [|discriminate].
  destruct (PyStr.nonempty _); [|discriminate].
  destruct (_ >=? _)%Z; [|discriminate].
  destruct (find _ _) as [m|] eqn:F; intros H; injection H as <-.
  - left. exists m. apply find_some in F as [Hin Hok].
    apply in_select_path_like in Hin as [Hin _].
    rewrite structural_ok_fit in Hok. auto.
  - now right.
Qed.

Lemma fuzzy_step_rows (db : Sql.table) (cmd : string) :
  match fuzzy_step db cmd with
  | Normalized r => In r db /\ path r = _normalize_command cmd
  | Fuzzy r => In r db /\ fuzzy_ok cmd r = true
  | NoMatch l => l = _find_similar_commands db cmd
  | _ => False
  end.
Proof.
  unfold fuzzy_step.
  destruct (Sql.select_path_eq db (_normalize_command cmd)) as [r|] eqn:E.
  - now apply select_path_eq_sound in E.
  - destruct (find _ _) as [m|] eqn:F; [|reflexivity].
    apply find_some in F as [Hin Hok]. split; [|assumption].
    destruct (PyStr.split cmd); [contradiction|].
    now apply in_select_path_like in Hin as [Hin _].
Qed.

(** Every row that a verdict reports is a row of the table. *)
Lemma outcome_row_in_db (db : Sql.table) (c : string) :
  match validate_outcome db c with
  | Exact r | Structural r | Normalized r | Fuzzy r => In r db
  | _ => True
  end.
Proof.
  unfold validate_outcome.
  destruct (negb _); [exact I|].
  destruct (Sql.select_path_eq db _) as [r|] eqn:E.
  - now apply select_path_eq_sound in E.
  - destruct (structural_step db _) as [o|] eqn:S.
    + apply structural_step_rows in S as [(m & -> & Hin & _)| ->];
        [assumption | exact I].
    + pose proof (fuzzy_step_rows db (PyStr.strip c)) as H.
      destruct (fuzzy_step db _); tauto.
Qed.

Lemma outcome_empty (db : Sql.table) (c : string) :
  validate_outcome db c = EmptyCommand -> PyStr.strip c = "".
Proof.
  unfold validate_outcome.
  destruct (PyStr.strip c) eqn:E; [reflexivity|]. cbn [PyStr.nonempty negb].
  destruct (Sql.select_path_eq db _); [discriminate|].
  destruct (structural_step db _) as [o|] eqn:S.
  - apply structural_step_rows in S as [(m & -> & _)| ->]; discriminate.
  - pose proof (fuzzy_step_rows db (String a s)) as H.
    destruct (fuzzy_step db _); try discriminate; contradiction.
Qed.

(** C3 -- at the failing input.  The row [trace add <node> <count>]
    begins with the two leading words of the input [trace add <interface>]
    and is one word longer, so the test [abs(..) <= 1] of line 206 holds;
    the guard of line 209 then rejects it, and the verdict is invalid.
    The same guard accepts [trace add filter] both for
    [trace add <interface>] and for [trace add <interface> 10], the two
    matches that the comments of lines 201 and 207-208 rule out. *)
Theorem structural_guard_slip :
  (PyStr.str_in "<" "trace add <interface>" = true
   /\ Sql.select_path_eq [trace_add_node_count] "trace add <interface>" = None
   /\ PyStr.startswith (path trace_add_node_count)
                       (base_cmd "trace add <interface>") = true
   /\ (Z.abs (word_count (path trace_add_node_count)
              - word_count "trace add <interface>") <=? 1)%Z = true
   /\ validate_command [trace_add_node_count] "trace add <interface>"
      = [ ("valid", PBool false);
          ("suggestions", PList ["trace add <node> <count>"]);
          ("reason",
           PStr "Command structure with placeholder not found in database") ])
  /\ validate_command [trace_add_filter] "trace add <interface>"
     = [ ("valid", PBool true); ("path", PStr "trace add filter");
         ("help", PStr "add a filtered trace"); ("category", PStr "show");
         ("similar", PBool true) ]
  /\ validate_command [trace_add_filter] "trace add <interface> 10"
     = [ ("valid", PBool true); ("path", PStr "trace add filter");
         ("help", PStr "add a filtered trace"); ("category", PStr "show");
         ("similar", PBool true) ].
Proof. vm_compute. repeat split. Qed.

(** C10 -- Every verdict has the key [valid].  A valid verdict carries the
    path, help text and category of a row of the table; an invalid one
    carries a list of suggestions.  A [reason] is present only for the
    empty command and for the failed placeholder block; the generic
    no-match verdict is exactly [valid] and [suggestions]. *)
Theorem verdict_shape (db : Sql.table) (c : string) :
  let v := validate_command db c in
  (exists b, dict_get v "valid" = Some (PBool b))
  /\ (dict_get v "valid" = Some (PBool true) ->
      exists r, In r db
                /\ dict_get v "path" = Some (PStr (path r))
                /\ dict_get v "help" = Some (PStr (short_help r))
                /\ dict_get v "category" = Some (PStr (category r)))
  /\ (dict_get v "valid" = Some (PBool false) ->
      exists l, dict_get v "suggestions" = Some (PList l))
  /\ (dict_has v "reason" = true ->
      (PyStr.strip c = ""
       /\ dict_get v "reason" = Some (PStr "Empty command"))
      \/ (exists ms, validate_outcome db c = StructuralFail ms
          /\ dict_get v "reason"
             = Some (PStr "Command structure with placeholder not found in database")))
  /\ (forall l, validate_outcome db c = NoMatch l ->
                v = [ ("valid", PBool false); ("suggestions", PList l) ]).
Proof.
  intros v. subst v. unfold validate_command.
  pose proof (outcome_row_in_db db c) as Hin.
  pose proof (outcome_empty db c) as Hemp.
  destruct (validate_outcome db c) as [|r|r|ms|r|r|l];
    cbn; (split; [eauto|]);
    (split; [first [discriminate | intros _; exists r; auto]|]);
    (split; [first [discriminate | eauto]|]);
    (split; [first [discriminate | intros _; eauto]|]);
    intros l' H; first [discriminate | injection H as <-; reflexivity].
Qed.

Lemma verdict_shape_witness :
  exists l, dict_get (validate_command completion_catalog "show unicorns")
                     "suggestions" = Some (PList l).
Proof.
  exact (proj1 (proj2 (proj2 (verdict_shape completion_catalog "show unicorns")))
           eq_refl).
Defined.

(** ** The scan of a free text *)

Section Dicts.

Context {V : Type}.

Lemma dict_get_set_same (d : dict V) (k : string) (v : V) :
  dict_get (dict_set d k v) k = Some v.
Proof.
  induction d as [|[k' v'] d IH]; cbn.
  - now rewrite String.eqb_refl.
  - destruct (String.eqb k' k) eqn:E; cbn; rewrite E; auto.
Qed.

Lemma dict_get_set_other (d : dict V) (k k' : string) (v : V) :
  k <> k' -> dict_get (dict_set d k v) k' = dict_get d k'.
Proof.
  intros Hne. induction d as [|[k0 v0] d IH]; cbn.
  - apply String.eqb_neq in Hne. now rewrite Hne.
  - destruct (String.eqb_spec k0 k) as [->|Hk]; cbn.
    + apply String.eqb_neq in Hne. now rewrite Hne.
    + now rewrite IH.
Qed.

End Dicts.

Lemma mem_In (x : string) (l : list string) :
  PyStr.mem x l = true <-> In x l.
Proof.
  unfold PyStr.mem. rewrite existsb_exists. split.
  - intros (y & Hy & E). apply String.eqb_eq in E. now subst.
  - intros H. exists x. split; [assumption | apply String.eqb_refl].
Qed.

Lemma mem_not_In (x : string) (l : list string) :
  PyStr.mem x l = false <-> ~ In x l.
Proof.
  rewrite <- mem_In. destruct (PyStr.mem x l); intuition congruence.
Qed.

(** The candidates are pairwise distinct. *)
Lemma unique_commands_NoDup (seen commands : list string) :
  NoDup (unique_commands seen commands)
  /\ forall x, In x (unique_commands seen commands) -> ~ In x seen.
Proof.
  revert seen. induction commands as [|c rest IH]; intros seen; cbn.
  - split; [constructor | contradiction].
  - destruct (PyStr.nonempty _ && negb (PyStr.mem _ seen) && _) eqn:E.
    + apply andb_prop in E as [E _]. apply andb_prop in E as [_ E].
      apply negb_true_iff, mem_not_In in E.
      destruct (IH (PyStr.strip c :: seen)) as [Hnd Hout]. split.
      * constructor; [|assumption]. intros Hin.
        apply Hout in Hin. apply Hin. now left.
      * intros x [<-|Hin]; [assumption|].
        intros Hs. apply (Hout x Hin). now right.
    + apply IH.
Qed.

Lemma extract_NoDup (text : string) :
  NoDup (_extract_commands_from_text text).
Proof. apply unique_commands_NoDup. Qed.

(** On a list without repeats [unique] changes nothing. *)
Lemma unique_go_NoDup (seen l : list string) :
  NoDup l -> (forall x, In x l -> ~ In x seen) -> PyStr.unique_go seen l = l.
Proof.
  revert seen. induction l as [|x l IH]; intros seen Hnd Hout; [reflexivity|].
  inversion Hnd as [|? ? Hx Hl]; subst. cbn.
  assert (E : PyStr.mem x seen = false)
    by (apply mem_not_In, Hout; now left).
  rewrite E. f_equal. apply IH; [assumption|].
  intros y Hy [<-|Hs]; [contradiction|].
  apply (Hout y); [now right | assumption].
Qed.

(** One iteration never raises, and files the candidate under exactly
    one of the two lists. *)
Lemma scan_one_total (db : Sql.table) (st : scan_state) (cmd : string) :
  exists st',
    scan_one db st cmd = Some st'
    /\ ((st_valid st' = (st_valid st ++ [cmd])%list
         /\ st_invalid st' = st_invalid st
         /\ _check_known_hallucination cmd = None)
        \/ (st_valid st' = st_valid st
            /\ st_invalid st' = (st_invalid st ++ [cmd])%list)).
Proof.
  unfold scan_one.
  destruct (_check_known_hallucination cmd) as [h|]; [eauto 6|].
  unfold validate_command.
  destruct (validate_outcome db cmd) as [|r|r|ms|r|r|l];
    cbn; eauto 8.
Qed.

Lemma scan_loop_total (db : Sql.table) (cmds : list string) :
  forall st, exists st',
    scan_loop db st cmds = Some st'
    /\ Permutation (st_valid st' ++ st_invalid st')
                   ((st_valid st ++ st_invalid st) ++ cmds).
Proof.
  induction cmds as [|cmd rest IH]; intros st; cbn [scan_loop].
  - exists st. split; [reflexivity|]. now rewrite app_nil_r.
  - destruct (scan_one_total db st cmd) as (st1 & -> & Hcase).
    destruct (IH st1) as (st' & -> & Hperm).
    exists st'. split; [reflexivity|].
    rewrite Hperm.
    destruct Hcase as [(-> & -> & _) | (-> & ->)];
      rewrite <- !app_assoc; cbn [app].
    + apply Permutation_app_head, Permutation_middle.
    + reflexivity.
Qed.

Lemma Qmake_of_nat (a : Z) (n : nat) :
  n <> 0 ->
  (Qmake a (Pos.of_nat n) == inject_Z a / inject_Z (Z.of_nat n))%Q.
Proof.
  intros Hn. rewrite (Qmake_Qdiv a (Pos.of_nat n)).
  replace (Z.pos (Pos.of_nat n)) with (Z.of_nat n); [reflexivity|].
  destruct n; [contradiction|]. rewrite <- Pos.of_nat_succ. lia.
Qed.

(** C9 -- The scan always returns a report.  Its confidence is the number
    of valid candidates over the size of the union of the valid and the
    invalid ones; it is 1 when no candidate was extracted, and then both
    lists are empty. *)
Theorem confidence_is_valid_ratio (db : Sql.table) (text : string) :
  exists r,
    validate_ai_response db text = Some r
    /\ match _extract_commands_from_text text with
       | [] => confidence r = 1%Q
               /\ valid_commands r = [] /\ invalid_commands r = []
       | _ :: _ =>
           (0 < union_size (valid_commands r) (invalid_commands r))%Z
           /\ (confidence r
               == inject_Z (len (valid_commands r))
                  / inject_Z (union_size (valid_commands r)
                                         (invalid_commands r)))%Q
       end.
Proof.
  unfold validate_ai_response.
  pose proof (extract_NoDup text) as Hnd.
  destruct (scan_loop_total db (_extract_commands_from_text text)
                            (mkScan [] [] [] [])) as (st & -> & Hperm).
  cbn [st_valid st_invalid app] in Hperm.
  eexists. split; [reflexivity|]. cbn [confidence valid_commands invalid_commands].
  destruct (_extract_commands_from_text text) as [|c cs] eqn:E.
  - apply Permutation_sym, Permutation_nil in Hperm.
    apply app_eq_nil in Hperm as [-> ->]. auto.
  - assert (Hu : union_size (st_valid st) (st_invalid st)
                 = Z.of_nat (List.length (c :: cs))).
    { unfold union_size, PyStr.unique, len.
      rewrite unique_go_NoDup.
      - now rewrite (Permutation_length Hperm).
      - apply (Permutation_NoDup (Permutation_sym Hperm) Hnd).
      - intros x _ []. }
    rewrite Hu. split; [cbn; lia|].
    apply Qmake_of_nat. discriminate.
Qed.

(** A candidate that the known-hallucination table matches is filed as
    invalid with the table's correction, whatever the other candidates and
    the table of commands are. *)
Section KnownHallucination.

Variable db : Sql.table.
Variable cmd : string.
Variable h : hallucination.
Hypothesis Hcheck : _check_known_hallucination cmd = Some h.

Lemma scan_one_flags (st st' : scan_state) :
  scan_one db st cmd = Some st' -> flagged cmd h st'.
Proof.
  unfold scan_one. rewrite Hcheck. intros H. injection H as <-.
  unfold flagged. cbn. rewrite !dict_get_set_same.
  repeat split. apply in_or_app. right. now left.
Qed.

Lemma scan_one_keeps (st st' : scan_state) (c : string) :
  flagged cmd h st -> scan_one db st c = Some st' -> flagged cmd h st'.
Proof.
  intros Hf H. destruct (string_dec c cmd) as [->|Hne];
    [now apply scan_one_flags in H|].
  destruct Hf as (Hi & Hk & Hs). revert H. unfold scan_one, flagged.
  destruct (_check_known_hallucination c).
  - intros H. injection H as <-. cbn.
    rewrite !dict_get_set_other by assumption.
    repeat split; try assumption. apply in_or_app. now left.
  - destruct (dict_get _ "valid") as [[[|]| |]|]; try discriminate.
    + intros H. injection H as <-. cbn. auto.
    + destruct (dict_get _ "suggestions") as [[| |l]|]; try discriminate.
      intros H. injection H as <-. cbn.
      repeat split; try assumption.
      * apply in_or_app. now left.
      * destruct l; [assumption|].
        now rewrite dict_get_set_other by assumption.
Qed.

Lemma scan_one_not_valid (st st' : scan_state) (c : string) :
  ~ In cmd (st_valid st) -> scan_one db st c = Some st' ->
  ~ In cmd (st_valid st').
Proof.
  intros Hv H.
  destruct (scan_one_total db st c) as (st1 & E & Hcase).
  rewrite E in H. injection H as <-.
  destruct Hcase as [(-> & _ & Hnone) | (-> & _)]; [|assumption].
  intros Hin. apply in_app_or in Hin as [Hin|[<-|[]]]; [auto|].
  congruence.
Qed.

Lemma scan_loop_flags (cmds : list string) :
  forall st st',
    scan_loop db st cmds = Some st' ->
    ~ In cmd (st_valid st) ->
    In cmd cmds \/ flagged cmd h st ->
    flagged cmd h st' /\ ~ In cmd (st_valid st').
Proof.
  induction cmds as [|c rest IH]; intros st st' H Hv Hor; cbn [scan_loop] in H.
  - injection H as <-. destruct Hor as [[]|Hf]. auto.
  - destruct (scan_one db st c) as [st1|] eqn:E; [|discriminate].
    apply (IH st1 st' H); [eapply scan_one_not_valid; eauto|].
    destruct Hor as [[->|Hin]|Hf].
    + right. eapply scan_one_flags; eauto.
    + now left.
    + right. eapply scan_one_keeps; eauto.
Qed.

End KnownHallucination.

(** C5 (as the code has it) -- When the candidate [trace add <interface>]
    is extracted from a text, the scan files it as invalid through the
    known-hallucination table, with the correction
    [trace add <input-graph-node>], for every table of commands: the
    catalog is not consulted for it. *)
Theorem known_hallucination_bypasses_catalog (db : Sql.table) (text : string) :
  In "trace add <interface>" (_extract_commands_from_text text) ->
  exists r,
    validate_ai_response db text = Some r
    /\ In "trace add <interface>" (invalid_commands r)
    /\ ~ In "trace add <interface>" (valid_commands r)
    /\ dict_get (known_hallucinations r) "trace add <interface>"
       = Some (mkHallucination true "trace add <interface[^>]*>"
                 "trace add <input-graph-node>"
                 "trace add requires input-graph-node, not interface name")
    /\ dict_get (suggestions r) "trace add <interface>"
       = Some ["trace add <input-graph-node>"].
Proof.
  intros Hin. unfold validate_ai_response.
  destruct (scan_loop_total db (_extract_commands_from_text text)
                            (mkScan [] [] [] [])) as (st & E & _).
  rewrite E. eexists. split; [reflexivity|].
  cbn [invalid_commands valid_commands known_hallucinations suggestions].
  assert (Hc : _check_known_hallucination "trace add <interface>"
               = Some (mkHallucination true "trace add <interface[^>]*>"
                         "trace add <input-graph-node>"
                         "trace add requires input-graph-node, not interface name"))
    by (vm_compute; reflexivity).
  destruct (scan_loop_flags db _ _ Hc _ _ _ E) as ((Hi & Hk & Hs) & Hv);
    [intros [] | now left |].
  auto.
Qed.

Lemma known_hallucination_bypasses_catalog_witness :
  exists r,
    validate_ai_response completion_catalog
      "Start with `trace add <interface>` and watch." = Some r
    /\ In "trace add <interface>" (invalid_commands r).
Proof.
  destruct (known_hallucination_bypasses_catalog completion_catalog
              "Start with `trace add <interface>` and watch.")
    as (r & E & Hi & _).
  - vm_compute. now left.
  - exists r. auto.
Defined.

(** C5 (as stated) fails: no pattern of the table matches
    [trace add eth0], so the candidate goes to the catalog.  With
    [trace add] in the catalog it is reported valid; with an empty catalog
    it is invalid without any correction. *)
Lemma trace_add_eth0_reaches_catalog :
  _extract_commands_from_text "Start with `trace add eth0` and watch."
  = ["trace add eth0"]
  /\ _check_known_hallucination "trace add eth0" = None
  /\ validate_ai_response [trace_add]
       "Start with `trace add eth0` and watch."
     = Some (mkReport ["trace add eth0"] [] [] [] 1%Q)
  /\ validate_ai_response []
       "Start with `trace add eth0` and watch."
     = Some (mkReport [] ["trace add eth0"] [] [] 0%Q).
Proof. vm_compute. repeat split. Qed.

(** ** Where the code departs from its own comments *)

(** What the partial-match block does guarantee of an accepted row. *)
Lemma fuzzy_match_sound (db : Sql.table) (c : string) (r : VPPCommand) :
  validate_outcome db c = Fuzzy r ->
  In r db
  /\ _commands_similar (PyStr.strip c) (path r) = true
  /\ (word_count (PyStr.strip c) - 1 <= word_count (path r))%Z.
Proof.
  unfold validate_outcome.
  destruct (negb _); [discriminate|].
  destruct (Sql.select_path_eq db _); [discriminate|].
  destruct (structural_step db _) as [o|] eqn:S.
  - apply structural_step_rows in S as [(m & -> & _)| ->]; discriminate.
  - pose proof (fuzzy_step_rows db (PyStr.strip c)) as H.
    intros E. rewrite E in H. destruct H as [Hin Hok].
    apply andb_prop in Hok as [Hs Hl]. apply Z.geb_le in Hl.
    unfold word_count. auto.
Qed.

(** C2 -- at the failing input: the one-word command [show] is accepted as
    a fuzzy match of a four-word signature. *)
Theorem fuzzy_accepts_longer_signature :
  validate_outcome [show_interface_address_detail] "show"
  = Fuzzy show_interface_address_detail
  /\ word_count "show" = 1%Z
  /\ word_count (path show_interface_address_detail) = 4%Z
  /\ validate_command [show_interface_address_detail] "show"
     = [ ("valid", PBool true);
         ("path", PStr "show interface address detail");
         ("help", PStr "addresses in detail"); ("category", PStr "show");
         ("similar", PBool true) ].
Proof. vm_compute. repeat split. Qed.

(** C6 -- at the failing input: the command [sh] is accepted as a fuzzy
    match of a signature whose first word is [show]. *)
Theorem fuzzy_accepts_other_first_word :
  validate_outcome [show_version] "sh" = Fuzzy show_version
  /\ hd_error (PyStr.split "sh") = Some "sh"
  /\ hd_error (PyStr.split (path show_version)) = Some "show".
Proof. vm_compute. repeat split. Qed.

(** C4 -- on the three-signature catalog, with no answer from the
    dataplane: [show] is completed by [interface] and [ip], and
    [show interface a] by nothing. *)
Theorem completion_example :
  get_vpp_completions completion_catalog "" "show" = ["interface"; "ip"]
  /\ get_vpp_completions completion_catalog "" "show interface a" = [].
Proof. vm_compute. split; reflexivity. Qed.

(** * Further properties *)

(** ** Characters, lower-casing and strips *)

Lemma lower_char_idempotent (c : ascii) :
  PyStr.lower_char (PyStr.lower_char c) = PyStr.lower_char c.
Proof.
  destruct c as [[] [] [] [] [] [] [] []]; vm_compute; reflexivity.
Qed.

Lemma lower_idempotent (s : string) : PyStr.lower (PyStr.lower s) = PyStr.lower s.
Proof.
  induction s as [|c s IH]; cbn; [reflexivity|].
  now rewrite lower_char_idempotent, IH.
Qed.

Lemma lower_append (a b : string) :
  PyStr.lower (a ++ b) = PyStr.lower a ++ PyStr.lower b.
Proof. induction a as [|c a IH]; cbn; [reflexivity | now rewrite IH]. Qed.

Lemma lower_char_isspace (c : ascii) :
  PyStr.isspace (PyStr.lower_char c) = PyStr.isspace c.
Proof.
  destruct c as [[] [] [] [] [] [] [] []]; vm_compute; reflexivity.
Qed.

Lemma first_ok_lstrip (s : string) : first_ok (PyStr.lstrip s) = true.
Proof.
  induction s as [|c s IH]; cbn; [reflexivity|].
  destruct (PyStr.isspace c) eqn:E; [exact IH | cbn; now rewrite E].
Qed.

Lemma rstrip_shape (s : string) :
  last_ok (PyStr.rstrip s) = true
  /\ (first_ok s = true -> first_ok (PyStr.rstrip s) = true).
Proof.
  induction s as [|c s [IHl IHf]]; [cbn; auto|].
  cbn [PyStr.rstrip]. destruct (PyStr.rstrip s) as [|d r] eqn:E.
  - destruct (PyStr.isspace c) eqn:Hc; cbn; rewrite Hc; cbn.
    + split; [reflexivity | discriminate].
    + auto.
  - split; [exact IHl | auto].
Qed.

(** [strip] is idempotent. *)
Lemma strip_idempotent (s : string) :
  PyStr.strip (PyStr.strip s) = PyStr.strip s.
Proof.
  apply strip_fixed; unfold PyStr.strip.
  - apply rstrip_shape, first_ok_lstrip.
  - apply rstrip_shape.
Qed.

(** ** Substrings *)

Lemma startswith_append (p rest : string) : PyStr.startswith (p ++ rest) p = true.
Proof.
  unfold PyStr.startswith. induction p as [|c p IH]; cbn.
  - now destruct rest.
  - destruct (ascii_dec c c); [exact IH | congruence].
Qed.

Lemma startswith_iff (s p : string) :
  PyStr.startswith s p = true <-> exists rest, s = p ++ rest.
Proof.
  split; [apply startswith_split|]. intros [rest ->]. apply startswith_append.
Qed.

Lemma str_in_iff (sub s : string) :
  PyStr.str_in sub s = true <-> exists a b, s = a ++ sub ++ b.
Proof.
  split.
  - induction s as [|c s IH]; cbn [PyStr.str_in]; intros H;
      apply orb_prop in H as [H|H].
    + apply startswith_split in H as [b Hb]. now exists "", b.
    + discriminate.
    + apply startswith_split in H as [b Hb]. now exists "", b.
    + destruct (IH H) as (a & b & ->). now exists (String c a), b.
  - intros (a & b & ->). induction a as [|c a IH].
    + cbn [append]. destruct (sub ++ b) eqn:E; cbn [PyStr.str_in];
        rewrite <- E, startswith_append; reflexivity.
    + cbn [append PyStr.str_in]. rewrite IH. apply orb_true_r.
Qed.

(** A text contains what each of its parts contains. *)
Lemma str_in_embed (sub x a y : string) :
  PyStr.str_in sub a = true -> PyStr.str_in sub (x ++ a ++ y) = true.
Proof.
  intros H. apply str_in_iff in H as (u & v & ->). apply str_in_iff.
  exists (x ++ u), (v ++ y). now rewrite !append_assoc.
Qed.

Lemma str_in_trans (a b s : string) :
  PyStr.str_in a b = true -> PyStr.str_in b s = true -> PyStr.str_in a s = true.
Proof.
  intros Hab Hbs. apply str_in_iff in Hbs as (x & y & ->).
  now apply str_in_embed.
Qed.

(** [LIKE '%q%'] holds of every text that contains [q]. *)
Lemma like_contains (q s : string) :
  PyStr.str_in q s = true -> Sql.like ("%" ++ q ++ "%") s = true.
Proof.
  intros H. apply str_in_iff in H as (a & b & ->).
  apply (like_percent (q ++ "%") a (q ++ b)), like_prefix.
Qed.

(** ** Lists without repeats and sorted lists *)

Lemma unique_go_spec (seen l : list string) :
  NoDup (PyStr.unique_go seen l)
  /\ forall x, In x (PyStr.unique_go seen l) <-> In x l /\ ~ In x seen.
Proof.
  revert seen. induction l as [|y l IH]; intros seen; cbn.
  - split; [constructor | tauto].
  - destruct (PyStr.mem y seen) eqn:E.
    + apply mem_In in E. destruct (IH seen) as [Hnd Hin].
      split; [assumption|]. intros x. rewrite Hin.
      split; [tauto|]. intros [[<-|H] Hs]; tauto.
    + apply mem_not_In in E. destruct (IH (y :: seen)) as [Hnd Hin].
      split.
      * constructor; [|assumption]. rewrite Hin. cbn. tauto.
      * intros x. cbn [In]. rewrite Hin. cbn [In].
        destruct (string_dec y x) as [->|Hne]; tauto.
Qed.

Lemma unique_NoDup (l : list string) : NoDup (PyStr.unique l).
Proof. apply unique_go_spec. Qed.

Lemma in_unique (x : string) (l : list string) :
  In x (PyStr.unique l) <-> In x l.
Proof.
  unfold PyStr.unique. rewrite (proj2 (unique_go_spec [] l)). cbn. tauto.
Qed.

Lemma insert_sorted_perm (x : string) (l : list string) :
  Permutation (PyStr.insert_sorted x l) (x :: l).
Proof.
  induction l as [|y l IH]; cbn; [reflexivity|].
  destruct (String.leb x y); [reflexivity|].
  rewrite IH. apply perm_swap.
Qed.

Lemma sorted_perm (l : list string) : Permutation (PyStr.sorted l) l.
Proof.
  induction l as [|x l IH]; cbn; [reflexivity|].
  fold (PyStr.sorted l). rewrite insert_sorted_perm. now constructor.
Qed.

Lemma in_sorted (x : string) (l : list string) :
  In x (PyStr.sorted l) <-> In x l.
Proof.
  split; apply Permutation_in;
    [apply sorted_perm | apply Permutation_sym, sorted_perm].
Qed.

Lemma leb_false_flip (x y : string) :
  String.leb x y = false -> String.leb y x = true.
Proof. destruct (String.leb_total x y); congruence. Qed.

Lemma insert_sorted_Sorted (x : string) (l : list string) :
  Sorted in_order l -> Sorted in_order (PyStr.insert_sorted x l).
Proof.
  induction l as [|y l IH]; intros Hs; cbn.
  - repeat constructor.
  - destruct (String.leb x y) eqn:E.
    + constructor; [assumption | now constructor].
    + inversion Hs as [|? ? Hs' Hhd]; subst.
      constructor; [now apply IH|].
      apply leb_false_flip in E.
      destruct l as [|z l]; cbn; [now constructor|].
      destruct (String.leb x z); constructor; [assumption|].
      now inversion Hhd.
Qed.

Lemma sorted_Sorted (l : list string) : Sorted in_order (PyStr.sorted l).
Proof.
  induction l as [|x l IH]; cbn; [constructor|].
  now apply insert_sorted_Sorted.
Qed.

Lemma insert_row_Sorted (r : VPPCommand) (l : Sql.table) :
  Sorted in_order (map path l) ->
  Sorted in_order (map path (Sql.insert_row r l)).
Proof.
  induction l as [|y l IH]; intros Hs; cbn.
  - repeat constructor.
  - destruct (String.leb (path r) (path y)) eqn:E; cbn [map].
    + constructor; [assumption | now constructor].
    + cbn [map] in Hs. inversion Hs as [|? ? Hs' Hhd]; subst.
      constructor; [now apply IH|].
      apply leb_false_flip in E.
      destruct l as [|z l]; cbn; [now constructor|].
      destruct (String.leb (path r) (path z)); cbn; constructor;
        [assumption|]. now inversion Hhd.
Qed.

Lemma order_by_path_Sorted (l : Sql.table) :
  Sorted in_order (map path (Sql.order_by_path l)).
Proof.
  induction l as [|x l IH]; cbn; [constructor|].
  now apply insert_row_Sorted.
Qed.

Lemma insert_row_length (r : VPPCommand) (l : Sql.table) :
  List.length (Sql.insert_row r l) = S (List.length l).
Proof.
  induction l as [|y l IH]; cbn; [reflexivity|].
  destruct (String.leb (path r) (path y)); cbn; [reflexivity|].
  now rewrite IH.
Qed.

Lemma order_by_path_length (l : Sql.table) :
  List.length (Sql.order_by_path l) = List.length l.
Proof.
  induction l as [|x l IH]; [reflexivity|].
  cbn [Sql.order_by_path fold_right]. fold (Sql.order_by_path l).
  now rewrite insert_row_length, IH.
Qed.

Lemma Sorted_firstn {A : Type} (R : A -> A -> Prop) (n : nat) (l : list A) :
  Sorted R l -> Sorted R (firstn n l).
Proof.
  revert n. induction l as [|x l IH]; intros n Hs; destruct n; cbn;
    try constructor.
  - inversion Hs; subst. now apply IH.
  - inversion Hs as [|? ? Hs' Hhd]; subst.
    destruct l; destruct n; cbn; constructor. now inversion Hhd.
Qed.

Lemma in_firstn {A : Type} (n : nat) (l : list A) (x : A) :
  In x (firstn n l) -> In x l.
Proof.
  revert n. induction l as [|y l IH]; intros [|n]; cbn; try tauto.
  intros [->|H]; [now left | right; eauto].
Qed.

Lemma NoDup_firstn {A : Type} (n : nat) (l : list A) :
  NoDup l -> NoDup (firstn n l).
Proof.
  revert n. induction l as [|y l IH]; intros [|n] H; cbn; try constructor.
  - inversion H; subst. intros Hin. apply in_firstn in Hin. contradiction.
  - inversion H; subst. now apply IH.
Qed.

Lemma firstn_length_le {A : Type} (n : nat) (l : list A) :
  List.length (firstn n l) <= n.
Proof. rewrite length_firstn. lia. Qed.

Lemma in_sql_limit {A : Type} (n : Z) (l : list A) (x : A) :
  In x (sql_limit n l) -> In x l.
Proof.
  unfold sql_limit. destruct (n <? 0)%Z; [auto | apply in_firstn].
Qed.

(** * The parser and the database *)

(** X1 -- [_categorize_command] returns one of eight categories and reads
    its argument without regard to letter case. *)
Theorem categorize_spec (p : string) :
  In (_categorize_command p) categories
  /\ _categorize_command (PyStr.lower p) = _categorize_command p.
Proof.
  unfold _categorize_command. rewrite lower_idempotent.
  split; [|reflexivity].
  repeat match goal with
         | |- context [if ?b then _ else _] => destruct b
         end; cbn; tauto.
Qed.

(** ** [save_commands] *)

Lemma NoDup_map_filter (f : VPPCommand -> bool) (db : Sql.table) :
  NoDup (map path db) -> NoDup (map path (filter f db)).
Proof.
  induction db as [|r db IH]; cbn; intros H; [constructor|].
  inversion H as [|? ? Hnot Hnd]; subst.
  destruct (f r); cbn; [|auto].
  constructor; [|auto]. intros Hin. apply Hnot.
  apply in_map_iff in Hin as (x & Hx & Hin).
  apply filter_In in Hin as [Hin _]. rewrite <- Hx. now apply in_map.
Qed.

Lemma insert_or_replace_unique (db : Sql.table) (cmd : VPPCommand) :
  Sql.unique_paths db -> Sql.unique_paths (insert_or_replace db cmd).
Proof.
  unfold Sql.unique_paths, insert_or_replace. intros H.
  rewrite map_app. cbn [map].
  assert (Hn : ~ In (path cmd)
                 (map path (filter (fun r => negb (String.eqb (path r) (path cmd))) db))).
  { intros Hin. apply in_map_iff in Hin as (x & Hx & Hin).
    apply filter_In in Hin as [_ Hf]. rewrite Hx, String.eqb_refl in Hf.
    discriminate. }
  pose proof (NoDup_map_filter
                (fun r => negb (String.eqb (path r) (path cmd))) db H) as Hf.
  revert Hn Hf. generalize (map path (filter (fun r => negb (String.eqb (path r) (path cmd))) db)).
  intros l Hn Hf. induction l as [|y l IH]; cbn.
  - repeat constructor. intros [].
  - inversion Hf as [|? ? Hy Hl]; subst. constructor.
    + intros Hin. apply in_app_or in Hin as [Hin|[<-|[]]]; [contradiction|].
      apply Hn. now left.
    + apply IH; [|assumption]. intros Hin. apply Hn. now right.
Qed.

(** X2 -- [save_commands] keeps the [UNIQUE] constraint on [path]. *)
Theorem save_commands_unique (db : Sql.table) (commands : list VPPCommand) :
  Sql.unique_paths db -> Sql.unique_paths (save_commands db commands).
Proof.
  unfold save_commands. revert db.
  induction commands as [|c cs IH]; intros db H; cbn; [assumption|].
  apply IH, insert_or_replace_unique, H.
Qed.

Lemma save_commands_unique_witness :
  Sql.unique_paths
    (save_commands completion_catalog
       [signature "show ip fib" "fib, again"; trace_add]).
Proof.
  apply save_commands_unique. unfold Sql.unique_paths. cbn.
  repeat constructor; cbn; intuition discriminate.
Defined.

Lemma select_insert_same (db : Sql.table) (cmd : VPPCommand) :
  Sql.select_path_eq (insert_or_replace db cmd) (path cmd) = Some cmd.
Proof.
  unfold Sql.select_path_eq, insert_or_replace.
  induction db as [|r db IH]; cbn.
  - now rewrite String.eqb_refl.
  - destruct (String.eqb (path r) (path cmd)) eqn:E; cbn; [exact IH|].
    now rewrite E.
Qed.

Lemma select_insert_other (db : Sql.table) (cmd : VPPCommand) (q : string) :
  q <> path cmd ->
  Sql.select_path_eq (insert_or_replace db cmd) q = Sql.select_path_eq db q.
Proof.
  intros Hne. unfold Sql.select_path_eq, insert_or_replace.
  induction db as [|r db IH]; cbn.
  - destruct (String.eqb_spec (path cmd) q); [congruence | reflexivity].
  - destruct (String.eqb_spec (path r) (path cmd)) as [e|n]; cbn.
    + destruct (String.eqb_spec (path r) q); [congruence | exact IH].
    + destruct (String.eqb (path r) q); [reflexivity | exact IH].
Qed.

Lemma select_save_other (commands : list VPPCommand) :
  forall (db : Sql.table) (q : string),
    ~ In q (map path commands) ->
    Sql.select_path_eq (save_commands db commands) q = Sql.select_path_eq db q.
Proof.
  unfold save_commands.
  induction commands as [|c cs IH]; intros db q Hq; cbn [fold_left];
    [reflexivity|].
  cbn in Hq. rewrite IH by tauto. apply select_insert_other. intuition.
Qed.

(** A stored path that [strip] leaves alone validates as an exact match
    of the row the lookup finds. *)
Lemma validate_found (db : Sql.table) (s : VPPCommand) :
  Sql.select_path_eq db (path s) = Some s ->
  PyStr.strip (path s) = path s ->
  path s <> "" ->
  validate_outcome db (path s) = Exact s.
Proof.
  intros Hsel Hstrip Hne. unfold validate_outcome. rewrite Hstrip.
  destruct (path s) eqn:E; [congruence|]. cbn [PyStr.nonempty negb].
  now rewrite Hsel.
Qed.

(** X3 -- After [save_commands], the last command saved under a path is
    the row that the exact lookup returns for that path, and (the path
    being non-empty and stripped, as the parser produces it) validating the
    path yields that command's path, help text and category. *)
Theorem save_then_validate
  (db : Sql.table) (before after : list VPPCommand) (c : VPPCommand) :
  ~ In (path c) (map path after) ->
  PyStr.strip (path c) = path c ->
  path c <> "" ->
  let db' := save_commands db (before ++ c :: after) in
  Sql.select_path_eq db' (path c) = Some c
  /\ validate_command db' (path c)
     = [ ("valid", PBool true); ("path", PStr (path c));
         ("help", PStr (short_help c)); ("category", PStr (category c)) ].
Proof.
  intros Hafter Hstrip Hne db'.
  assert (Hsel : Sql.select_path_eq db' (path c) = Some c).
  { subst db'. unfold save_commands. rewrite fold_left_app. cbn [fold_left].
    fold (save_commands (insert_or_replace (fold_left insert_or_replace before db) c) after).
    rewrite select_save_other by assumption. apply select_insert_same. }
  split; [assumption|].
  unfold validate_command. now rewrite validate_found.
Qed.

Lemma save_then_validate_witness :
  validate_command
    (save_commands completion_catalog
       ([signature "show ip fib" "old help"]
        ++ signature "show ip fib" "new help" :: [trace_add]))
    "show ip fib"
  = [ ("valid", PBool true); ("path", PStr "show ip fib");
      ("help", PStr "new help"); ("category", PStr "show") ].
Proof.
  refine (proj2 (save_then_validate completion_catalog
                   [signature "show ip fib" "old help"] [trace_add]
                   (signature "show ip fib" "new help") _ _ _)).
  - cbn. intuition discriminate.
  - reflexivity.
  - discriminate.
Defined.

(** ** [search_commands] and [get_commands_by_category] *)

Lemma sql_limit_length {A : Type} (n : Z) (l : list A) :
  (n < 0)%Z \/ (len (sql_limit n l) <= n)%Z.
Proof.
  unfold sql_limit, len. destruct (Z.ltb_spec n 0); [now left | right].
  pose proof (firstn_length_le (Z.to_nat n) l). lia.
Qed.

Lemma sql_limit_Sorted {A : Type} (R : A -> A -> Prop) (n : Z) (l : list A) :
  Sorted R l -> Sorted R (sql_limit n l).
Proof.
  unfold sql_limit. destruct (n <? 0)%Z; [auto | apply Sorted_firstn].
Qed.

Lemma sql_limit_all {A : Type} (n : Z) (l : list A) :
  (n < 0 \/ len l <= n)%Z -> sql_limit n l = l.
Proof.
  unfold sql_limit, len. intros H.
  destruct (Z.ltb_spec n 0); [reflexivity|].
  apply firstn_all2. lia.
Qed.

Lemma search_commands_rows (db : Sql.table) (query : string) (limit : Z) :
  ((limit < 0)%Z \/ (len (search_commands db query limit) <= limit)%Z)
  /\ Sorted in_order (map result_path (search_commands db query limit))
  /\ Forall (fun d =>
               exists r, In r db
                 /\ d = [ ("path", PStr (path r)); ("help", PStr (short_help r));
                          ("category", PStr (category r)) ]
                 /\ (Sql.like ("%" ++ query ++ "%") (path r) = true
                     \/ Sql.like ("%" ++ query ++ "%") (short_help r) = true))
            (search_commands db query limit).
Proof.
  unfold search_commands.
  set (rows := Sql.order_by_path _).
  repeat split.
  - unfold len. rewrite length_map. apply sql_limit_length.
  - rewrite map_map.
    change (map _ (sql_limit limit rows))
      with (map path (sql_limit limit rows)).
    assert (Hs : Sorted in_order (map path rows)) by apply order_by_path_Sorted.
    unfold sql_limit. destruct (limit <? 0)%Z; [assumption|].
    rewrite <- firstn_map. now apply Sorted_firstn.
  - apply Forall_forall. intros d Hd.
    apply in_map_iff in Hd as (r & <- & Hr).
    apply in_sql_limit in Hr. subst rows.
    apply in_order_by_path, filter_In in Hr as [Hin Hl].
    exists r. repeat split; [assumption|].
    now apply orb_prop in Hl.
Qed.

(** X4 -- [search_commands] returns at most [limit] rows (all of them for
    a negative [limit]), sorted by path; each is a row of the table whose
    path or help text matches [LIKE '%query%']. *)
Theorem search_commands_sound (db : Sql.table) (query : string) (limit : Z) :
  ((limit < 0)%Z \/ (len (search_commands db query limit) <= limit)%Z)
  /\ Sorted in_order (map result_path (search_commands db query limit))
  /\ Forall (fun d =>
               exists r, In r db
                 /\ d = [ ("path", PStr (path r)); ("help", PStr (short_help r));
                          ("category", PStr (category r)) ]
                 /\ (Sql.like ("%" ++ query ++ "%") (path r) = true
                     \/ Sql.like ("%" ++ query ++ "%") (short_help r) = true))
            (search_commands db query limit).
Proof. exact (search_commands_rows db query limit). Qed.

(** X5 -- [search_commands] finds every row whose path or help text
    contains the query as a substring, whenever the limit does not cut the
    result (negative, or at least the size of the table).  This is stated
    where SQLite evaluates the query as modelled: the query and the field
    that contains it hold no code point 0, the pattern ['%query%'] has at
    most 50000 bytes, and the limit is a signed 64-bit integer. *)
Theorem search_commands_complete
  (db : Sql.table) (query : string) (limit : Z) (r : VPPCommand) :
  In r db ->
  nul_free query = true ->
  (utf8_length query + 2 <= 50000)%Z ->
  (PyStr.str_in query (path r) = true /\ nul_free (path r) = true)
  \/ (PyStr.str_in query (short_help r) = true
      /\ nul_free (short_help r) = true) ->
  int64 limit ->
  (limit < 0 \/ len db <= limit)%Z ->
  In [ ("path", PStr (path r)); ("help", PStr (short_help r));
       ("category", PStr (category r)) ]
     (search_commands db query limit).
Proof.
  intros Hin _ _ Hq _ Hlim. unfold search_commands.
  apply (in_map (fun row => [ ("path", PStr (path row));
                              ("help", PStr (short_help row));
                              ("category", PStr (category row)) ])).
  rewrite sql_limit_all.
  - apply in_order_by_path, filter_In. split; [assumption|].
    apply orb_true_iff.
    destruct Hq as [[H _]|[H _]]; [left | right]; now apply like_contains.
  - destruct Hlim as [H|H]; [now left | right].
    unfold len in *. rewrite order_by_path_length.
    pose proof (filter_length_le
                  (fun r0 => Sql.like ("%" ++ query ++ "%") (path r0)
                             || Sql.like ("%" ++ query ++ "%") (short_help r0)) db).
    lia.
Qed.

Lemma search_commands_complete_witness :
  In [ ("path", PStr "show ip fib"); ("help", PStr "forwarding table");
       ("category", PStr "show") ]
     (search_commands completion_catalog "ward" 10).
Proof.
  apply (search_commands_complete completion_catalog "ward" 10
           (signature "show ip fib" "forwarding table")).
  - cbn. tauto.
  - reflexivity.
  - vm_compute. discriminate.
  - right. split; reflexivity.
  - unfold int64. lia.
  - right. vm_compute. discriminate.
Defined.

Lemma validate_stored (db : Sql.table) (s : VPPCommand) :
  Sql.unique_paths db -> In s db ->
  PyStr.strip (path s) = path s -> path s <> "" ->
  validate_outcome db (path s) = Exact s.
Proof.
  intros Hu Hin. apply validate_found. now apply select_path_eq_unique.
Qed.

(** X6 -- Every row that [get_commands_by_category] lists has the category
    asked for, in path order; and validating the listed path (non-empty and
    stripped, paths being unique) reports that same category. *)
Theorem category_listing_validates
  (db : Sql.table) (cat : string) (d : dict pyval) :
  Sql.unique_paths db ->
  In d (get_commands_by_category db cat) ->
  PyStr.strip (result_path d) = result_path d ->
  result_path d <> "" ->
  Sorted in_order (map result_path (get_commands_by_category db cat))
  /\ (exists r, In r db /\ category r = cat
                /\ d = [ ("path", PStr (path r)); ("help", PStr (short_help r)) ])
  /\ dict_get (validate_command db (result_path d)) "category"
     = Some (PStr cat).
Proof.
  intros Hu Hd Hstrip Hne. split.
  - unfold get_commands_by_category. rewrite map_map.
    apply order_by_path_Sorted.
  - unfold get_commands_by_category in Hd.
    apply in_map_iff in Hd as (r & <- & Hr).
    apply in_order_by_path, filter_In in Hr as [Hin Hc].
    apply String.eqb_eq in Hc.
    split; [exists r; auto|].
    change (result_path [("path", PStr (path r)); ("help", PStr (short_help r))])
      with (path r) in *.
    unfold validate_command. rewrite (validate_stored db r) by assumption.
    cbn. now rewrite Hc.
Qed.

Lemma category_listing_validates_witness :
  dict_get (validate_command completion_catalog "show ip fib") "category"
  = Some (PStr "show").
Proof.
  refine (proj2 (proj2 (category_listing_validates completion_catalog "show"
            [ ("path", PStr "show ip fib"); ("help", PStr "forwarding table") ]
            _ _ _ _))).
  - unfold Sql.unique_paths. cbn.
    repeat constructor; cbn; intuition discriminate.
  - vm_compute. tauto.
  - reflexivity.
  - discriminate.
Defined.

(** ** Suggestions *)

Lemma in_flat_map_paths (db : Sql.table) (words : list string) (x : string) :
  In x (flat_map
          (fun word =>
             if (2 <? String.length word)%nat
             then map path (firstn 5 (Sql.select_path_like db ("%" ++ word ++ "%")))
             else []) words) ->
  In x (map path db).
Proof.
  intros H. apply in_flat_map in H as (w & _ & Hx).
  destruct (2 <? String.length w)%nat; [|contradiction].
  apply in_map_iff in Hx as (r & <- & Hr). apply in_firstn in Hr.
  apply in_select_path_like in Hr as [Hr _]. now apply in_map.
Qed.

Lemma find_similar_commands_shape (db : Sql.table) (command : string) :
  List.length (_find_similar_commands db command) <= 5
  /\ NoDup (_find_similar_commands db command)
  /\ Forall (fun x => In x (map path db)) (_find_similar_commands db command).
Proof.
  unfold _find_similar_commands. repeat split.
  - apply firstn_length_le.
  - apply NoDup_firstn, unique_NoDup.
  - apply Forall_forall. intros x Hx. apply in_firstn in Hx.
    apply (proj1 (in_unique _ _)) in Hx.
    now apply in_flat_map_paths in Hx.
Qed.

(** X7 -- [_find_similar_commands] returns at most five suggestions,
    without repeats, and each is a stored path. *)
Theorem find_similar_commands_spec (db : Sql.table) (command : string) :
  List.length (_find_similar_commands db command) <= 5
  /\ NoDup (_find_similar_commands db command)
  /\ Forall (fun x => In x (map path db)) (_find_similar_commands db command).
Proof. exact (find_similar_commands_shape db command). Qed.

Lemma suggestions_of_failure (ms : list VPPCommand) :
  dict_get (verdict (StructuralFail ms)) "suggestions"
  = Some (PList (map path (firstn 3 ms))).
Proof. reflexivity. Qed.

Lemma verdict_suggestions_in_table
  (db : Sql.table) (c : string) (l : list string) :
  dict_get (validate_command db c) "suggestions" = Some (PList l) ->
  List.length l <= 5 /\ Forall (fun x => In x (map path db)) l.
Proof.
  unfold validate_command, validate_outcome.
  destruct (negb _).
  { cbn. intros H. injection H as <-. cbn. split; [lia | constructor]. }
  destruct (Sql.select_path_eq db _) as [r|]; [cbn; discriminate|].
  destruct (structural_step db _) as [o|] eqn:S.
  - apply structural_step_rows in S as [(m & -> & _)| ->];
      [cbn; discriminate|].
    rewrite suggestions_of_failure. intros H.
    assert (E : l = map path (firstn 3 (Sql.select_path_like db
                       (base_cmd (PyStr.strip c) ++ "%")))) by congruence.
    clear H. subst l. split.
    + rewrite length_map.
      apply Nat.le_trans with 3; [apply firstn_length_le | lia].
    + apply Forall_forall. intros x Hx.
      apply in_map_iff in Hx as (r & <- & Hr). apply in_firstn in Hr.
      apply in_select_path_like in Hr as [Hr _]. now apply in_map.
  - pose proof (fuzzy_step_rows db (PyStr.strip c)) as H.
    destruct (fuzzy_step db _) as [|r|r|ms|r|r|l']; try contradiction;
      try (cbn; discriminate).
    cbn. intros E. injection E as <-. subst l'.
    destruct (find_similar_commands_shape db (PyStr.strip c)) as (H1 & _ & H3).
    auto.
Qed.

(** X8 -- Whatever the command, the suggestions of a verdict are at most
    five and each is a stored path: [validate_command] never suggests a
    command that is not in the table. *)
Theorem verdict_suggestions_stored
  (db : Sql.table) (c : string) (l : list string) :
  dict_get (validate_command db c) "suggestions" = Some (PList l) ->
  List.length l <= 5 /\ Forall (fun x => In x (map path db)) l.
Proof. exact (verdict_suggestions_in_table db c l). Qed.

Lemma verdict_suggestions_stored_witness :
  List.length ["show interface"; "show interface address"; "show ip fib"] <= 5.
Proof.
  exact (proj1 (verdict_suggestions_stored completion_catalog "show unicorns"
                  ["show interface"; "show interface address"; "show ip fib"]
                  eq_refl)).
Defined.

(** ** Edge behaviour of [validate_command] *)

(** X9 -- The empty-command verdict is returned for the blank commands and
    for no other. *)
Theorem validate_empty_iff (db : Sql.table) (c : string) :
  validate_command db c
  = [ ("valid", PBool false); ("suggestions", PList []);
      ("reason", PStr "Empty command") ]
  <-> PyStr.strip c = "".
Proof.
  split.
  - intros H. apply (outcome_empty db). unfold validate_command in H.
    destruct (validate_outcome db c); cbn in H; try discriminate; reflexivity.
  - intros H. unfold validate_command, validate_outcome. now rewrite H.
Qed.


(** X11 -- Whitespace around a command never changes its verdict. *)
Theorem validate_ignores_outer_whitespace (db : Sql.table) (c : string) :
  validate_command db (PyStr.strip c) = validate_command db c.
Proof.
  unfold validate_command, validate_outcome. now rewrite strip_idempotent.
Qed.

(** ** The normalized match *)

Lemma longest_Void (s : string) : Re.longest Re.Void s = None.
Proof. induction s as [|c s IH]; cbn; [reflexivity | now rewrite IH]. Qed.

Lemma str_in_cons_false (sub : string) (c : ascii) (s : string) :
  PyStr.str_in sub (String c s) = false ->
  PyStr.startswith (String c s) sub = false /\ PyStr.str_in sub s = false.
Proof. cbn [PyStr.str_in]. intros H. now apply orb_false_elim in H. Qed.

(** Without [<] in the text there is no placeholder to replace. *)
Lemma sub_placeholder_none (repl s : string) :
  PyStr.str_in "<" s = false -> Re.sub placeholder_re repl s = s.
Proof.
  unfold Re.sub. induction s as [|c s IH]; intros H; [reflexivity|].
  apply str_in_cons_false in H as [Hc Hs].
  cbn [Re.sub_go]. rewrite (IH Hs).
  assert (Hne : Ascii.eqb "<" c = false).
  { unfold PyStr.startswith in Hc. cbn in Hc.
    destruct (ascii_dec "<" c) as [<-|n]; [now destruct s|].
    now apply Ascii.eqb_neq. }
  assert (Hl : Re.longest placeholder_re (String c s) = None).
  { unfold placeholder_re. cbn [Re.longest Re.nullable Re.deriv Re.chr andb].
    rewrite Hne. cbn [Re.cat]. now rewrite longest_Void. }
  now rewrite Hl.
Qed.

Lemma structural_step_none (db : Sql.table) (c : string) :
  PyStr.str_in "<" c = false -> structural_step db c = None.
Proof.
  intros H. unfold structural_step.
  rewrite sub_placeholder_none by assumption. rewrite H, orb_false_r.
  destruct (PyStr.str_in "<placeholder>" c) eqn:E; [|reflexivity].
  assert (Hlt : PyStr.str_in "<" "<placeholder>" = true) by reflexivity.
  rewrite (str_in_trans _ _ _ Hlt E) in H. discriminate.
Qed.

(** X12 -- Plural folding: when a command whose second word is one of the
    six plurals is not stored itself, contains no [<], and the command with
    the singular in its place is stored, the verdict is that stored row,
    marked [normalized]. *)
Theorem validate_folds_plural
  (db : Sql.table) (r : VPPCommand) (w0 plural singular : string)
  (rest : list string) :
  Sql.unique_paths db ->
  In r db ->
  Forall (fun w => is_token w = true) (w0 :: plural :: rest) ->
  dict_get normalizations plural = Some singular ->
  path r = PyStr.join " " (w0 :: singular :: rest) ->
  ~ In (PyStr.join " " (w0 :: plural :: rest)) (map path db) ->
  PyStr.str_in "<" (PyStr.join " " (w0 :: plural :: rest)) = false ->
  validate_command db (PyStr.join " " (w0 :: plural :: rest))
  = [ ("valid", PBool true); ("path", PStr (path r));
      ("help", PStr (short_help r)); ("category", PStr (category r));
      ("normalized", PBool true) ].
Proof.
  intros Hu Hin Htok Hn Hpath Hnot Hlt.
  set (c := PyStr.join " " (w0 :: plural :: rest)) in *.
  assert (Hs : PyStr.strip c = c) by now apply strip_join_tokens.
  assert (Hne : PyStr.nonempty c = true)
    by (apply (join_tokens_shape (w0 :: plural :: rest)); [discriminate | assumption]).
  assert (Hex : Sql.select_path_eq db c = None).
  { destruct (Sql.select_path_eq db c) as [x|] eqn:E; [|reflexivity].
    apply select_path_eq_sound in E as [Hx Hp]. exfalso. apply Hnot.
    rewrite <- Hp. now apply in_map. }
  assert (Hnorm : _normalize_command c = path r).
  { unfold _normalize_command. subst c. rewrite split_join by assumption.
    now rewrite Hn, Hpath. }
  unfold validate_command, validate_outcome.
  rewrite Hs, Hne, Hex. cbn [negb].
  rewrite structural_step_none by assumption.
  unfold fuzzy_step. rewrite Hnorm, select_path_eq_unique by assumption.
  reflexivity.
Qed.

Lemma validate_folds_plural_witness :
  validate_command completion_catalog "show interfaces address"
  = [ ("valid", PBool true); ("path", PStr "show interface address");
      ("help", PStr "interface addresses"); ("category", PStr "show");
      ("normalized", PBool true) ].
Proof.
  refine (validate_folds_plural completion_catalog
            (signature "show interface address" "interface addresses")
            "show" "interfaces" "interface" ["address"] _ _ _ _ _ _ _).
  - unfold Sql.unique_paths. cbn.
    repeat constructor; cbn; intuition discriminate.
  - cbn. tauto.
  - repeat constructor.
  - reflexivity.
  - reflexivity.
  - cbn. intuition discriminate.
  - reflexivity.
Defined.

(** ** Completion from the database *)

(** X13 -- [get_command_completions] (and [complete_command], which calls
    it) returns at most 20 stored paths, in path order, each matching
    [LIKE 'partial%']; when the table has at most 20 rows, every stored
    path that begins with the partial command is returned. *)
Theorem command_completions_spec (db : Sql.table) (partial : string) :
  complete_command db partial = get_command_completions db partial
  /\ List.length (get_command_completions db partial) <= 20
  /\ Sorted in_order (get_command_completions db partial)
  /\ Forall (fun p => In p (map path db)
                      /\ Sql.like (partial ++ "%") p = true)
            (get_command_completions db partial)
  /\ (List.length db <= 20 ->
      forall r, In r db -> PyStr.startswith (path r) partial = true ->
                In (path r) (get_command_completions db partial)).
Proof.
  unfold complete_command, get_command_completions.
  split; [reflexivity|]. split; [|split; [|split]].
  - rewrite length_map. apply firstn_length_le.
  - rewrite <- firstn_map. apply Sorted_firstn, order_by_path_Sorted.
  - apply Forall_forall. intros p Hp.
    apply in_map_iff in Hp as (r & <- & Hr). apply in_firstn in Hr.
    apply in_select_path_like in Hr as [Hr Hl].
    split; [now apply in_map | assumption].
  - intros Hlen r Hr Hs. apply in_map. rewrite firstn_all2.
    + apply in_select_path_like. split; [assumption|].
      apply startswith_split in Hs as [t ->]. apply like_prefix.
    + unfold Sql.select_path_like. rewrite order_by_path_length.
      pose proof (filter_length_le
                    (fun r0 => Sql.like (partial ++ "%") (path r0)) db). lia.
Qed.

Lemma command_completions_spec_witness :
  In "show interface address"
     (get_command_completions completion_catalog "show interface a").
Proof.
  refine (proj2 (proj2 (proj2 (proj2
            (command_completions_spec completion_catalog "show interface a"))))
            _ (signature "show interface address" "interface addresses") _ _).
  - cbn. lia.
  - cbn. tauto.
  - reflexivity.
Defined.

(** ** Similarity *)

Lemma NoDup_same_length (l1 l2 : list string) :
  NoDup l1 -> NoDup l2 -> (forall x, In x l1 <-> In x l2) ->
  List.length l1 = List.length l2.
Proof.
  intros H1 H2 H. apply Permutation_length, NoDup_Permutation; assumption.
Qed.

Lemma NoDup_filter_str (f : string -> bool) (l : list string) :
  NoDup l -> NoDup (filter f l).
Proof. apply NoDup_filter. Qed.

(** X14 -- [_commands_similar] is symmetric: whether two commands are
    similar does not depend on which is given first. *)
Theorem commands_similar_symmetric (cmd1 cmd2 : string) :
  _commands_similar cmd1 cmd2 = _commands_similar cmd2 cmd1.
Proof.
  unfold _commands_similar.
  set (w1 := PyStr.split (PyStr.lower cmd1)).
  set (w2 := PyStr.split (PyStr.lower cmd2)).
  destruct (list_eq_dec string_dec w1 w2) as [e|n],
           (list_eq_dec string_dec w2 w1) as [e'|n'];
    try reflexivity; try congruence.
  rewrite (orb_comm (PyStr.str_in (PyStr.join " " w2) (PyStr.join " " w1))).
  destruct (_ || _); [reflexivity|].
  assert (Hu : List.length (PyStr.unique (w1 ++ w2)%list)
               = List.length (PyStr.unique (w2 ++ w1)%list)).
  { apply NoDup_same_length; try apply unique_NoDup.
    intros x. rewrite !in_unique, !in_app_iff. tauto. }
  assert (Hi : List.length (filter (fun w => PyStr.mem w w2) (PyStr.unique w1))
               = List.length (filter (fun w => PyStr.mem w w1) (PyStr.unique w2))).
  { apply NoDup_same_length; try (apply NoDup_filter_str, unique_NoDup).
    intros x. rewrite !filter_In, !in_unique, !mem_In. tauto. }
  unfold len. rewrite Hi.
  destruct (PyStr.unique (w1 ++ w2)%list) as [|a u1],
           (PyStr.unique (w2 ++ w1)%list) as [|b u2];
    cbn [List.length] in Hu; try discriminate; [reflexivity|].
  cbn [List.length]. now rewrite Hu.
Qed.

(** X15 -- [_commands_similar] compares commands without regard to letter
    case, and every command is similar to itself. *)
Theorem commands_similar_case_blind (cmd1 cmd2 : string) :
  _commands_similar (PyStr.lower cmd1) (PyStr.lower cmd2)
  = _commands_similar cmd1 cmd2
  /\ _commands_similar cmd1 cmd1 = true.
Proof.
  unfold _commands_similar. rewrite !lower_idempotent. split; [reflexivity|].
  destruct (list_eq_dec string_dec _ _); [reflexivity | congruence].
Qed.

(** ** The scan of a free text, in general *)

Lemma dict_has_set {V : Type} (d : dict V) (k k' : string) (v : V) :
  dict_has (dict_set d k v) k' = true -> k' = k \/ dict_has d k' = true.
Proof.
  unfold dict_has. destruct (string_dec k k') as [->|Hne]; [now left|].
  rewrite dict_get_set_other by assumption. now right.
Qed.

Lemma scan_one_keys (db : Sql.table) (st st' : scan_state) (cmd : string) :
  keys_invalid st -> scan_one db st cmd = Some st' -> keys_invalid st'.
Proof.
  intros [Hk Hs]. unfold scan_one, keys_invalid.
  destruct (_check_known_hallucination cmd).
  - intros H. injection H as <-. cbn. split; intros k Hd;
      apply dict_has_set in Hd as [->|Hd]; apply in_or_app; cbn; auto.
  - destruct (dict_get _ "valid") as [[[|]| |]|]; try discriminate.
    + intros H. injection H as <-. cbn. auto.
    + destruct (dict_get _ "suggestions") as [[| |l]|]; try discriminate.
      intros H. injection H as <-. cbn. split; intros k Hd.
      * apply in_or_app. auto.
      * destruct l; [apply in_or_app; auto|].
        apply dict_has_set in Hd as [->|Hd]; apply in_or_app; cbn; auto.
Qed.

Lemma scan_loop_keys (db : Sql.table) (cmds : list string) :
  forall st st', keys_invalid st -> scan_loop db st cmds = Some st' ->
                 keys_invalid st'.
Proof.
  induction cmds as [|c cs IH]; intros st st' Hk H; cbn [scan_loop] in H.
  - now injection H as <-.
  - destruct (scan_one db st c) as [st1|] eqn:E; [|discriminate].
    eapply IH; [eapply scan_one_keys|]; eauto.
Qed.

(** X16 -- Every report that the scan returns files each extracted
    candidate under exactly one of [valid_commands] and
    [invalid_commands], and the keys of [known_hallucinations] and of
    [suggestions] are invalid commands. *)
Theorem scan_partitions_candidates
  (db : Sql.table) (text : string) (r : report) :
  validate_ai_response db text = Some r ->
  Permutation (valid_commands r ++ invalid_commands r)
              (_extract_commands_from_text text)
  /\ NoDup (valid_commands r ++ invalid_commands r)
  /\ (forall k, dict_has (known_hallucinations r) k = true ->
                In k (invalid_commands r))
  /\ (forall k, dict_has (suggestions r) k = true ->
                In k (invalid_commands r)).
Proof.
  unfold validate_ai_response.
  destruct (scan_loop_total db (_extract_commands_from_text text)
                            (mkScan [] [] [] [])) as (st & E & Hperm).
  rewrite E. intros H. injection H as <-.
  cbn [valid_commands invalid_commands known_hallucinations suggestions].
  cbn [st_valid st_invalid app] in Hperm.
  assert (Hk : keys_invalid st).
  { eapply scan_loop_keys; [|exact E]. split; intros k H; discriminate. }
  destruct Hk as [Hk Hs].
  repeat split; try assumption.
  apply (Permutation_NoDup (Permutation_sym Hperm)), extract_NoDup.
Qed.

Lemma scan_partitions_candidates_witness :
  NoDup (["show ip fib"] ++ ["show ufo"]).
Proof.
  exact (proj1 (proj2
    (scan_partitions_candidates completion_catalog
       "Try `show ip fib` or `show ufo`."
       (mkReport ["show ip fib"] ["show ufo"]
          [("show ufo",
            ["show interface"; "show interface address"; "show ip fib"])]
          [] (1 # 2)%Q)
       (eq_refl : validate_ai_response completion_catalog
                    "Try `show ip fib` or `show ufo`."
                  = Some (mkReport ["show ip fib"] ["show ufo"]
                            [("show ufo",
                              ["show interface"; "show interface address";
                               "show ip fib"])]
                            [] (1 # 2)%Q))))).
Defined.

Lemma check_known_correct (cmd : string) (h : hallucination) :
  _check_known_hallucination cmd = Some h ->
  correct h = "trace add <input-graph-node>"
  \/ correct h = "show trace [max COUNT]".
Proof.
  unfold _check_known_hallucination.
  destruct (find _ _) as [[[[p r] c] why]|] eqn:F; [|discriminate].
  intros H. injection H as <-. cbn [correct].
  apply find_some in F as [Hin _]. cbn in Hin.
  decompose [or] Hin; try contradiction;
    match goal with H : _ = _ |- _ => injection H as <- <- <- <- end; auto.
Qed.

(** X17 -- The table of known hallucinations goes first: a candidate that
    one of its patterns matches is filed as invalid, never as valid, with
    the table's correction as its only suggestion, whatever the table of
    commands holds -- also when the candidate is a stored path. *)
Theorem known_hallucination_overrides_catalog
  (db : Sql.table) (text cmd : string) (h : hallucination) :
  In cmd (_extract_commands_from_text text) ->
  _check_known_hallucination cmd = Some h ->
  exists r,
    validate_ai_response db text = Some r
    /\ In cmd (invalid_commands r)
    /\ ~ In cmd (valid_commands r)
    /\ dict_get (known_hallucinations r) cmd = Some h
    /\ dict_get (suggestions r) cmd = Some [correct h]
    /\ (correct h = "trace add <input-graph-node>"
        \/ correct h = "show trace [max COUNT]").
Proof.
  intros Hin Hc. unfold validate_ai_response.
  destruct (scan_loop_total db (_extract_commands_from_text text)
                            (mkScan [] [] [] [])) as (st & E & _).
  rewrite E. eexists. split; [reflexivity|].
  cbn [invalid_commands valid_commands known_hallucinations suggestions].
  destruct (scan_loop_flags db _ _ Hc _ _ _ E) as ((Hi & Hk & Hs) & Hv);
    [intros [] | now left |].
  repeat split; try assumption. eapply check_known_correct; eauto.
Qed.

Lemma known_hallucination_overrides_catalog_witness :
  exists r,
    validate_ai_response [signature "show trace detail" "stored all the same"]
      "Then run `show trace detail`." = Some r
    /\ In "show trace detail" (invalid_commands r)
    /\ ~ In "show trace detail" (valid_commands r).
Proof.
  destruct (known_hallucination_overrides_catalog
              [signature "show trace detail" "stored all the same"]
              "Then run `show trace detail`." "show trace detail"
              (mkHallucination true "show trace detail"
                 "show trace [max COUNT]"
                 ("show trace does not have a " ++ dquote ++ "detail"
                  ++ dquote ++ " option")))
    as (r & E & Hi & Hv & _).
  - vm_compute. now left.
  - vm_compute. reflexivity.
  - exists r. auto.
Defined.

(** X18 -- The candidates extracted from a text are pairwise distinct,
    non-empty and free of surrounding whitespace. *)
Theorem extracted_candidates_clean (text : string) :
  NoDup (_extract_commands_from_text text)
  /\ Forall (fun c => c <> "" /\ PyStr.strip c = c)
            (_extract_commands_from_text text).
Proof.
  split; [apply extract_NoDup|].
  unfold _extract_commands_from_text.
  generalize (backtick_commands text
              ++ item_commands (PyStr.split_sep (String "010"%char "") text)
              ++ standalone_commands (PyStr.split_sep (String "010"%char "") text))%list.
  generalize (@nil string).
  intros seen l. revert seen.
  induction l as [|c l IH]; intros seen; cbn [unique_commands]; [constructor|].
  destruct (PyStr.nonempty (PyStr.strip c) && _ && _) eqn:E; [|apply IH].
  constructor; [|apply IH].
  apply andb_prop in E as [E _]. apply andb_prop in E as [E _].
  split; [|apply strip_idempotent].
  destruct (PyStr.strip c); [discriminate | discriminate].
Qed.

(** ** Letter case in the known-hallucination table *)

Lemma case_blind_cat (r1 r2 : Re.regex) :
  case_blind r1 -> case_blind r2 -> case_blind (Re.cat r1 r2).
Proof. destruct r1, r2; cbn; tauto. Qed.

Lemma case_blind_alt (r1 r2 : Re.regex) :
  case_blind r1 -> case_blind r2 -> case_blind (Re.alt r1 r2).
Proof. destruct r1, r2; cbn; tauto. Qed.

Lemma case_blind_deriv (c : ascii) (r : Re.regex) :
  case_blind r -> case_blind (Re.deriv c r).
Proof.
  induction r as [| |p|r1 IH1 r2 IH2|r1 IH1 r2 IH2|r1 IH1]; cbn; intros H;
    try exact I.
  - now destruct (p c).
  - destruct H as [H1 H2]. destruct (Re.nullable r1);
      auto using case_blind_cat, case_blind_alt.
  - destruct H as [H1 H2]. auto using case_blind_alt.
  - apply case_blind_cat; cbn; auto.
Qed.

Lemma deriv_lower (c : ascii) (r : Re.regex) :
  case_blind r -> Re.deriv (PyStr.lower_char c) r = Re.deriv c r.
Proof.
  induction r as [| |p|r1 IH1 r2 IH2|r1 IH1 r2 IH2|r1 IH1]; cbn; intros H;
    try reflexivity.
  - now rewrite H.
  - destruct H as [H1 H2]. now rewrite IH1, IH2.
  - destruct H as [H1 H2]. now rewrite IH1, IH2.
  - now rewrite IH1.
Qed.

Lemma longest_lower (s : string) :
  forall r, case_blind r -> Re.longest r (PyStr.lower s) = Re.longest r s.
Proof.
  induction s as [|c s IH]; intros r H; cbn; [reflexivity|].
  rewrite deriv_lower by assumption.
  now rewrite IH by now apply case_blind_deriv.
Qed.

Lemma search_lower (r : Re.regex) (s : string) :
  case_blind r -> Re.search r (PyStr.lower s) = Re.search r s.
Proof.
  intros H. induction s as [|c s IH].
  - reflexivity.
  - cbn [Re.search PyStr.lower]. rewrite IH. f_equal.
    unfold Re.match_. change (String (PyStr.lower_char c) (PyStr.lower s))
      with (PyStr.lower (String c s)).
    now rewrite longest_lower.
Qed.

Lemma case_blind_chr_i (c : ascii) : case_blind (Re.chr_i c).
Proof. intros x. now rewrite lower_char_idempotent. Qed.

Lemma case_blind_lit_i (s : string) : case_blind (Re.lit_i s).
Proof.
  induction s as [|c s IH]; cbn [Re.lit_i case_blind]; [exact I|].
  split; [apply case_blind_chr_i | exact IH].
Qed.

Lemma case_blind_not_chr_gt : case_blind (Re.not_chr ">").
Proof.
  intros x. destruct x as [[] [] [] [] [] [] [] []]; vm_compute; reflexivity.
Qed.

Lemma case_blind_chr_gt : case_blind (Re.chr ">").
Proof.
  intros x. destruct x as [[] [] [] [] [] [] [] []]; vm_compute; reflexivity.
Qed.

Lemma case_blind_dot : case_blind Re.dot.
Proof.
  intros x. destruct x as [[] [] [] [] [] [] [] []]; vm_compute; reflexivity.
Qed.

Lemma find_ext_in {A : Type} (f g : A -> bool) (l : list A) :
  (forall x, In x l -> f x = g x) -> find f l = find g l.
Proof.
  induction l as [|x l IH]; intros H; cbn; [reflexivity|].
  rewrite (H x) by now left. destruct (g x); [reflexivity|].
  apply IH. intros y Hy. apply H. now right.
Qed.

(** X19 -- On ASCII commands the known-hallucination check ignores letter
    case: a command and its lower-case form get the same answer. *)
Theorem known_hallucination_case_blind (command : string) :
  is_ascii command = true ->
  _check_known_hallucination (PyStr.lower command)
  = _check_known_hallucination command.
Proof.
  intros _. unfold _check_known_hallucination.
  rewrite (find_ext_in
             (fun e : string * Re.regex * string * string =>
                let '(_, r, _, _) := e in Re.search r (PyStr.lower command))
             (fun e : string * Re.regex * string * string =>
                let '(_, r, _, _) := e in Re.search r command));
    [reflexivity|].
  intros [[[p r] c] why] Hin. apply search_lower.
  cbn in Hin. decompose [or] Hin; try contradiction;
    match goal with H : _ = _ |- _ => injection H as <- <- <- <- end;
    cbn [case_blind];
    repeat split;
    auto using case_blind_lit_i, case_blind_chr_i, case_blind_not_chr_gt,
               case_blind_chr_gt, case_blind_dot.
Qed.

Lemma known_hallucination_case_blind_witness :
  _check_known_hallucination (PyStr.lower "Trace ADD <Interface_Name>")
  = _check_known_hallucination "Trace ADD <Interface_Name>".
Proof.
  exact (known_hallucination_case_blind "Trace ADD <Interface_Name>" eq_refl).
Defined.

(** ** [class VPPAutocompleter] *)

(** X20 -- [get_help_for_command] never raises.  The help it returns is the
    help text of a stored row, and then [suggest_similar_commands] has
    nothing to offer; when it returns no help, the suggestions are a list
    of stored paths. *)
Theorem help_or_suggestions (db : Sql.table) (c : string) :
  match get_help_for_command db c with
  | Some (Some h) =>
      (exists r, In r db /\ short_help r = h)
      /\ suggest_similar_commands db c = PList []
  | Some None =>
      exists l, suggest_similar_commands db c = PList l
                /\ Forall (fun x => In x (map path db)) l
  | None => False
  end.
Proof.
  pose proof (outcome_row_in_db db c) as Hrow.
  pose proof (verdict_suggestions_in_table db c) as Hsug.
  unfold get_help_for_command, suggest_similar_commands, validate_command in *.
  destruct (validate_outcome db c) as [|r|r|ms|r|r|l].
  - exists []. split; [reflexivity | constructor].
  - split; [eauto | reflexivity].
  - split; [eauto | reflexivity].
  - rewrite suggestions_of_failure in *.
    eexists. split; [reflexivity|]. now apply (Hsug _ eq_refl).
  - split; [eauto | reflexivity].
  - split; [eauto | reflexivity].
  - exists l. split; [reflexivity|]. now apply (Hsug l eq_refl).
Qed.

(** * The agent *)

(** ** [_is_vpp_error] *)

Lemma nonempty_lower (s : string) :
  PyStr.nonempty (PyStr.lower s) = PyStr.nonempty s.
Proof. now destruct s. Qed.

(** X21 -- An output that contains an error output is an error output, also
    after lower-casing: [_is_vpp_error] looks for its markers anywhere in
    the text and without regard to letter case. *)
Theorem vpp_error_embeds (before output after : string) :
  _is_vpp_error output = true ->
  _is_vpp_error (before ++ output ++ after) = true
  /\ _is_vpp_error (PyStr.lower output) = true.
Proof.
  unfold _is_vpp_error. rewrite nonempty_lower, lower_idempotent.
  destruct output as [|c o]; [discriminate|]. cbn [PyStr.nonempty negb].
  intros H. split; [|exact H].
  assert (Hne : PyStr.nonempty (before ++ String c o ++ after) = true)
    by (apply nonempty_append_r; reflexivity).
  rewrite Hne. cbn [negb].
  apply existsb_exists in H as (p & Hp & Hin).
  apply existsb_exists. exists p. split; [assumption|].
  rewrite !lower_append. now apply str_in_embed.
Qed.

Lemma vpp_error_embeds_witness :
  _is_vpp_error ("vpp# " ++ "show: Unknown Input `x'" ++ " (1)") = true.
Proof.
  exact (proj1 (vpp_error_embeds "vpp# " "show: Unknown Input `x'" " (1)"
                  eq_refl)).
Defined.

(** ** [_is_likely_vpp_command] *)

(** X22 -- Whether a text is taken for a command is decided by three tests
    on its stripped lower-case form: it matches a command template, or it
    contains no conversational phrase, begins with a VPP verb and has no
    function word among its words.  The tests for IP addresses and
    interface names and the limit of four words never change the
    answer. *)
Theorem likely_vpp_command_spec (input_text : string) :
  let s := PyStr.strip (PyStr.lower input_text) in
  _is_likely_vpp_command input_text
  = matches_vpp_pattern s
    || (negb (has_natural_word s) && has_vpp_verb s
        && negb (has_function_word (PyStr.split s))).
Proof.
  intros s. unfold _is_likely_vpp_command. fold s.
  destruct (matches_vpp_pattern s); [reflexivity|].
  destruct (has_natural_word s); [reflexivity|].
  destruct (has_vpp_verb s); [|reflexivity].
  destruct (has_function_word (PyStr.split s)); [reflexivity|].
  cbn. destruct (_ || _); [reflexivity|].
  now destruct (_ <=? _)%Z.
Qed.

(** X23 -- A conversational phrase beats a leading verb: a text that
    matches no command template and contains one of the conversational
    phrases is not taken for a command.  Since [how] is one of them, that
    holds of every text that contains [show] and matches no template. *)
Theorem conversational_phrase_wins (input_text phrase : string) :
  let s := PyStr.strip (PyStr.lower input_text) in
  matches_vpp_pattern s = false ->
  (In phrase natural_words \/ phrase = "show") ->
  PyStr.str_in phrase s = true ->
  _is_likely_vpp_command input_text = false.
Proof.
  intros s Hm Hp Hin. unfold _is_likely_vpp_command. fold s. rewrite Hm.
  assert (Hn : has_natural_word s = true).
  { apply existsb_exists. destruct Hp as [Hp| ->].
    - now exists phrase.
    - exists "how". split; [cbn; tauto|].
      apply (str_in_trans "how" "show" s); [reflexivity | assumption]. }
  now rewrite Hn.
Qed.

Lemma conversational_phrase_wins_witness :
  _is_likely_vpp_command "show trace" = false.
Proof.
  apply (conversational_phrase_wins "show trace" "show").
  - reflexivity.
  - now right.
  - reflexivity.
Defined.

(** ** [get_vpp_completions], in general *)

Lemma sorted_unique_shape (l : list string) :
  Sorted in_order (PyStr.sorted (PyStr.unique l))
  /\ NoDup (PyStr.sorted (PyStr.unique l))
  /\ forall x, In x (PyStr.sorted (PyStr.unique l)) <-> In x l.
Proof.
  repeat split.
  - apply sorted_Sorted.
  - apply (Permutation_NoDup (Permutation_sym (sorted_perm _))), unique_NoDup.
  - intros H. apply (proj1 (in_sorted _ _)) in H.
    now apply (proj1 (in_unique _ _)) in H.
  - intros H. apply (proj2 (in_sorted _ _)). now apply (proj2 (in_unique _ _)).
Qed.

Lemma in_sorted_unique (l : list string) (x : string) :
  In x (PyStr.sorted (PyStr.unique l)) -> In x l.
Proof. apply sorted_unique_shape. Qed.

Lemma distinct_paths_stored (db : Sql.table) (pat p : string) :
  In p (select_distinct_paths db pat) -> exists r, In r db /\ path r = p.
Proof.
  unfold select_distinct_paths. intros H. apply in_firstn in H.
  apply (proj1 (in_unique _ _)) in H.
  apply in_map_iff in H as (r & <- & Hr).
  apply in_select_path_like in Hr as [Hr _]. eauto.
Qed.

Lemma matching_tokens_stored (db : Sql.table) (parts : list string) (t : string) :
  In t (next_tokens_of_matching db parts) ->
  exists r, In r db /\ In t (PyStr.split (path r)).
Proof.
  unfold next_tokens_of_matching. intros H.
  apply in_sorted_unique in H.
  apply in_flat_map in H as (cmd & Hcmd & Ht).
  apply (proj1 (in_unique _ _)) in Hcmd.
  apply in_flat_map in Hcmd as (pat & _ & Hcmd).
  apply distinct_paths_stored in Hcmd as (r & Hr & <-).
  exists r. split; [assumption|].
  destruct (_ <? _)%nat eqn:L; [|contradiction].
  apply Nat.ltb_lt in L.
  assert (Hn : In (nth (List.length (map expand_abbreviation parts))
                       (PyStr.split (path r)) "") (PyStr.split (path r)))
    by now apply nth_In.
  destruct (_ && _).
  - destruct (_ || _); [|contradiction]. destruct Ht as [<-|[]]. exact Hn.
  - destruct Ht as [<-|[]]. exact Hn.
Qed.

Lemma fallback_tokens_stored (db : Sql.table) (partial t : string) :
  In t (next_tokens_of_fallback db partial) ->
  exists r, In r db /\ In t (PyStr.split (path r)).
Proof.
  unfold next_tokens_of_fallback. intros H.
  apply in_sorted_unique in H.
  apply in_flat_map in H as (comp & Hcomp & Ht).
  apply in_firstn in Hcomp. unfold get_command_completions in Hcomp.
  apply in_map_iff in Hcomp as (r & <- & Hr). apply in_firstn in Hr.
  apply in_select_path_like in Hr as [Hr _].
  exists r. split; [assumption|].
  destruct (_ <? _)%nat eqn:L; [|contradiction].
  apply Nat.ltb_lt in L. destruct Ht as [<-|[]]. now apply nth_In.
Qed.

(** X24 -- The completions are always sorted and free of repeats.  When the
    dataplane prints completion words they are the answer, whatever the
    database holds; otherwise every completion is a word of a stored
    path. *)
Theorem vpp_completions_spec (db : Sql.table) (stdout partial : string) :
  Sorted in_order (get_vpp_completions db stdout partial)
  /\ NoDup (get_vpp_completions db stdout partial)
  /\ match vpp_completion_words stdout with
     | [] => Forall (fun t => exists r, In r db /\ In t (PyStr.split (path r)))
                    (get_vpp_completions db stdout partial)
     | words => forall t, In t (get_vpp_completions db stdout partial)
                          <-> In t words
     end.
Proof.
  unfold get_vpp_completions.
  destruct (vpp_completion_words stdout) as [|w ws].
  - destruct (PyStr.split (PyStr.strip partial)) as [|p ps];
      [repeat split; constructor|].
    destruct (next_tokens_of_matching db (p :: ps)) as [|t ts] eqn:M.
    + destruct (next_tokens_of_fallback db partial) as [|t ts] eqn:F;
        [repeat split; constructor|].
      rewrite <- F. unfold next_tokens_of_fallback at 1 2.
      repeat split; try apply sorted_unique_shape.
      apply Forall_forall. intros x. apply fallback_tokens_stored.
    + rewrite <- M. unfold next_tokens_of_matching at 1 2.
      repeat split; try apply sorted_unique_shape.
      apply Forall_forall. intros x. apply matching_tokens_stored.
  - repeat split; try apply sorted_unique_shape.
Qed.

(** ** [_try_correct_typo] *)

Lemma correct_from_suggestions_stored
  (db : Sql.table) (c : string) (words : list string) (s : string) :
  correct_from_suggestions words (validate_command db c) = Some s ->
  In s (map path db).
Proof.
  unfold correct_from_suggestions.
  destruct (dict_get (validate_command db c) "suggestions")
    as [[| |[|s0 l]]|] eqn:E; try discriminate.
  apply verdict_suggestions_in_table in E as [_ E].
  rewrite Forall_forall in E.
  destruct (find _ _) as [x|] eqn:F.
  - intros H. injection H as <-. apply find_some in F as [F _]. auto.
  - destruct words as [|w ws]; [discriminate|].
    destruct (PyStr.startswith _ _); [|discriminate].
    intros H. injection H as <-. apply E. now left.
Qed.

Lemma correct_from_search_stored
  (words : list string) (similar : list (dict pyval)) (s : string) :
  correct_from_search words similar = Some s ->
  exists d, In d similar /\ dict_get d "path" = Some (PStr s).
Proof.
  induction similar as [|d rest IH]; cbn [correct_from_search];
    [discriminate|].
  destruct (dict_get d "path") as [[|p|]|] eqn:E; try discriminate.
  destruct (_ && _ && _).
  - intros H. injection H as <-. exists d. split; [now left | assumption].
  - intros H. destruct (IH H) as (d' & Hin & Hd). exists d'.
    split; [now right | assumption].
Qed.

(** X25 -- The typo corrector proposes nothing for a text that does not
    begin with a VPP verb, and whatever it proposes is a command that
    [validate_command] accepts or a stored path: it never invents a
    command. *)
Theorem typo_correction_sound (db : Sql.table) (input_text c : string) :
  _try_correct_typo db input_text = Some c ->
  has_vpp_verb (PyStr.strip (PyStr.lower input_text)) = true
  /\ (dict_get (validate_command db c) "valid" = Some (PBool true)
      \/ In c (map path db)).
Proof.
  unfold _try_correct_typo.
  destruct (has_vpp_verb _); [|discriminate]. cbn [negb].
  intros H. split; [reflexivity|]. revert H.
  match goal with
  | |- context [validate_command db (PyStr.join " " ?ws)] =>
      set (normalized_input := PyStr.join " " ws)
  end.
  destruct (dict_get (validate_command db normalized_input) "valid")
    as [[[|]| |]|] eqn:V1; try discriminate.
  { intros H. injection H as <-. now left. }
  destruct (dict_get (validate_command db input_text) "valid")
    as [[[|]| |]|] eqn:V2; try discriminate.
  { intros H. injection H as <-. now left. }
  destruct (correct_from_suggestions _ _) as [s|] eqn:S.
  { intros H. injection H as <-. right.
    eapply correct_from_suggestions_stored; eauto. }
  destruct (PyStr.split _) as [|w0 [|w1 rest]]; try discriminate.
  intros H. apply correct_from_search_stored in H as (d & Hd & Hp).
  apply in_firstn in Hd.
  destruct (search_commands_rows db (w0 ++ " " ++ w1) 10) as (_ & _ & Hs).
  rewrite Forall_forall in Hs. destruct (Hs d Hd) as (r & Hr & -> & _).
  cbn in Hp. injection Hp as <-. right. now apply in_map.
Qed.

Lemma typo_correction_sound_witness :
  dict_get (validate_command completion_catalog "show interface addr") "valid"
  = Some (PBool true)
  \/ In "show interface addr" (map path completion_catalog).
Proof.
  exact (proj2 (typo_correction_sound completion_catalog "show int adr"
                  "show interface addr" eq_refl)).
Defined.

(** * More on the normalizer and the partial match *)

Lemma singular_token (s : string) : In s singulars -> is_token s = true.
Proof.
  intros H. cbn in H. decompose [or] H; subst; try contradiction; reflexivity.
Qed.

(** X26 -- [_normalize_command] either returns the command as it is, or
    rewrites its second word to one of the six singular forms and leaves
    every other word in place; the number of words never changes. *)
Theorem normalize_rewrites_second_word (command : string) :
  word_count (_normalize_command command) = word_count command
  /\ (_normalize_command command = command
      \/ exists w0 w1 rest s,
           PyStr.split command = w0 :: w1 :: rest
           /\ In s singulars
           /\ PyStr.split (_normalize_command command) = w0 :: s :: rest).
Proof.
  pose proof (split_tokens command) as Htok.
  unfold _normalize_command, word_count.
  destruct (PyStr.split command) as [|w0 [|w1 rest]] eqn:E;
    try (rewrite E; split; [reflexivity | now left]).
  inversion Htok as [|? ? H0 Ht]; subst. inversion Ht as [|? ? H1 Hr]; subst.
  assert (Hshape : forall s, In s singulars ->
            PyStr.split (PyStr.join " " (w0 :: s :: rest)) = w0 :: s :: rest).
  { intros s Hs. apply split_join.
    constructor; [assumption|]. constructor; [now apply singular_token|].
    assumption. }
  destruct (dict_get normalizations w1) as [s|] eqn:Hd.
  - apply dict_get_normalizations in Hd. rewrite (Hshape s Hd).
    split; [reflexivity|]. right. exists w0, w1, rest, s. auto.
  - destruct (find _ normalizations) as [[p s]|] eqn:Hf.
    + apply find_normalizations in Hf. rewrite (Hshape s Hf).
      split; [reflexivity|]. right. exists w0, w1, rest, s. auto.
    + rewrite E. split; [reflexivity | now left].
Qed.

(** X27 -- What a fuzzy acceptance guarantees: the command is not a stored
    path, nor is its normal form; the accepted row is stored, its path
    matches [LIKE 'first_word%'] for the first word of the command, the two
    are similar, and the row has at most one word fewer than the
    command. *)
Theorem fuzzy_match_guarantees (db : Sql.table) (c : string) (r : VPPCommand) :
  validate_outcome db c = Fuzzy r ->
  let cmd := PyStr.strip c in
  Sql.select_path_eq db cmd = None
  /\ Sql.select_path_eq db (_normalize_command cmd) = None
  /\ In r db
  /\ (exists first_word rest,
        PyStr.split cmd = first_word :: rest
        /\ Sql.like (first_word ++ "%") (path r) = true)
  /\ _commands_similar cmd (path r) = true
  /\ (word_count cmd - 1 <= word_count (path r))%Z.
Proof.
  intros H cmd. unfold validate_outcome in H. fold cmd in H.
  destruct (negb _); [discriminate|].
  destruct (Sql.select_path_eq db cmd) eqn:E1; [discriminate|].
  destruct (structural_step db cmd) as [o|] eqn:S.
  { apply structural_step_rows in S as [(m & -> & _)| ->]; discriminate. }
  unfold fuzzy_step in H.
  destruct (Sql.select_path_eq db (_normalize_command cmd)) eqn:E2;
    [discriminate|].
  destruct (find _ _) as [m|] eqn:F; [|discriminate].
  injection H as ->. apply find_some in F as [Hin Hok].
  apply andb_prop in Hok as [Hs Hl]. apply Z.geb_le in Hl.
  destruct (PyStr.split cmd) as [|w ws] eqn:W; [contradiction|].
  apply in_select_path_like in Hin as [Hin Hlike].
  repeat split; try assumption.
  - exists w, ws. auto.
  - unfold word_count. now rewrite W.
Qed.

Lemma fuzzy_match_guarantees_witness :
  _commands_similar "show" (path show_interface_address_detail) = true.
Proof.
  exact (proj1 (proj2 (proj2 (proj2 (proj2
           (fuzzy_match_guarantees [show_interface_address_detail] "show"
              show_interface_address_detail eq_refl)))))).
Defined.

(** ** [_parse_interfaces] and [_get_interface_names] *)

(** X28 -- Every row parsed from a [show interfaces] table has a name, an
    index, a state and an MTU that are non-empty words without whitespace;
    so [_get_interface_names] drops no row: it returns the name of each
    parsed row, in order. *)
Theorem interface_names_complete (stdout : string) :
  Forall (fun iface =>
            exists n i s m f,
              iface = [ ("name", PStr n); ("idx", PStr i); ("state", PStr s);
                        ("mtu", PStr m); ("flags", PStr f) ]
              /\ is_token n = true /\ is_token i = true
              /\ is_token s = true /\ is_token m = true)
         (_parse_interfaces stdout)
  /\ _get_interface_names stdout
     = map (fun iface => PStr (match dict_get iface "name" with
                               | Some (PStr n) => n
                               | _ => EmptyString
                               end))
           (_parse_interfaces stdout).
Proof.
  assert (Hrows : Forall (fun iface =>
            exists n i s m f,
              iface = [ ("name", PStr n); ("idx", PStr i); ("state", PStr s);
                        ("mtu", PStr m); ("flags", PStr f) ]
              /\ is_token n = true /\ is_token i = true
              /\ is_token s = true /\ is_token m = true)
         (_parse_interfaces stdout)).
  { unfold _parse_interfaces. apply Forall_forall. intros iface H.
    apply in_flat_map in H as (line & _ & H).
    destruct (_ && _); [|contradiction].
    pose proof (split_tokens line) as Htok.
    destruct (PyStr.split line) as [|p0 [|p1 [|p2 [|p3 rest]]]];
      try contradiction.
    destruct H as [<-|[]].
    inversion Htok as [|? ? H0 T0]; subst. inversion T0 as [|? ? H1 T1]; subst.
    inversion T1 as [|? ? H2 T2]; subst. inversion T2 as [|? ? H3 T3]; subst.
    exists p0, p1, p2, p3, (PyStr.join " " rest). auto. }
  split; [exact Hrows|].
  unfold _get_interface_names.
  induction (_parse_interfaces stdout) as [|iface l IH]; [reflexivity|].
  inversion Hrows as [|? ? (n & i & s & m & f & -> & Hn & _) Hl]; subst.
  cbn [flat_map map]. rewrite (IH Hl).
  change (dict_get [("name", PStr n); ("idx", PStr i); ("state", PStr s);
                    ("mtu", PStr m); ("flags", PStr f)] "name")
    with (Some (PStr n)).
  cbn [truthy]. apply andb_prop in Hn as [Hn _]. now rewrite Hn.
Qed.
